(** * Loan data pre-processing ([src/prePocessData.py])

    A shallow embedding of the pre-processing stages of the loan-default
    pipeline: the salary imputer ([processZeroSalaries]), the feature
    joiner ([combineFeatures]), the cleaner ([cleanData]), the outlier
    filter ([removeOutliers]) and the encoder ([labelEncoding]).

    Conventions.
    - Python exceptions are values of [exn]; a computation that may raise
      has type [result A].  [KeyError] and [IndexError] are the two
      subclasses of Python's [LookupError] that occur here.
    - A number cell is a rational ([Q]).  The float64 arithmetic of
      numpy and scipy behind the outlier filter is not re-implemented:
      it is a parameter ([FloatLib]) of that function, and what is
      proved about the filter holds for every library, under the laws
      a statement names (one score for each entry; not-a-number for a
      sample without spread).
    - A [dict] is a [gmap]; iterating over it walks [map_to_list].
    - A pandas [DataFrame] is an index (row labels) together with an
      ordered list of named columns; a cell is a number or a string
      (missing cells are outside this model).
    - [sklearn]'s [LabelEncoder] is library code; it is modelled by
      what it computes: the position of a value in the ascending list
      of the distinct values.
    - Console output ([print], the progress bar) is not part of any
      returned value and is left out. *)

From Stdlib Require Import QArith Qabs Sorted.
From stdpp Require Import base gmap list strings fin_maps pretty.

Local Open Scope Z_scope.

(** * Part I: the program *)

(** ** Exceptions and results *)

Inductive exn : Type :=
| KeyError
| IndexError
| TypeError
| ValueError.

Definition is_LookupError (e : exn) : bool :=
  match e with
  | KeyError | IndexError => true
  | _ => false
  end.

Inductive result (A : Type) : Type :=
| Ok (a : A)
| Raise (e : exn).
Arguments Ok {A} a.
Arguments Raise {A} e.

Definition bind {A B} (r : result A) (k : A → result B) : result B :=
  match r with
  | Ok a => k a
  | Raise e => Raise e
  end.

Notation "'let*' x ':=' r 'in' k" := (bind r (fun x => k))
  (at level 10, x name, r at level 100, k at level 200).

(** [d[k]] on a dict: [KeyError] when the key is missing. *)
Definition dict_get {V} (d : gmap Z V) (k : Z) : result V :=
  match d !! k with
  | Some v => Ok v
  | None => Raise KeyError
  end.

(** [a[i]] on an array: [IndexError] when out of range. *)
Definition array_get {V} (a : list V) (i : nat) : result V :=
  match a !! i with
  | Some v => Ok v
  | None => Raise IndexError
  end.

(** [for x in xs: s = body(s, x)], stopping at the first exception. *)
Fixpoint for_each {A S} (body : S → A → result S) (xs : list A) (s : S)
  : result S :=
  match xs with
  | [] => Ok s
  | x :: xs' => let* s' := body s x in for_each body xs' s'
  end.

(** [[f(x) for x in xs]], stopping at the first exception. *)
Fixpoint map_each {A B} (f : A → result B) (xs : list A) : result (list B) :=
  match xs with
  | [] => Ok []
  | x :: xs' =>
      let* y := f x in
      let* ys := map_each f xs' in
      Ok (y :: ys)
  end.

(** ** Cell values and data frames *)

Inductive value : Type :=
| VNum (q : Q)
| VStr (s : string).

Record DataFrame : Type := mkDataFrame {
  df_index : list Z;
  df_columns : list (string * list value)
}.

Definition col_names (df : DataFrame) : list string := (df_columns df).*1.

Definition nrows (df : DataFrame) : nat := length (df_index df).

(** The invariant pandas maintains: column labels are distinct and every
    column has one cell per row. *)
Definition wf (df : DataFrame) : Prop :=
  NoDup (col_names df)
  ∧ Forall (λ p, length p.2 = nrows df) (df_columns df).

Fixpoint assoc {A} (c : string) (l : list (string * A)) : option A :=
  match l with
  | [] => None
  | (n, a) :: l' => if decide (n = c) then Some a else assoc c l'
  end.

(** [df[col]] *)
Definition getitem (df : DataFrame) (col : string) : result (list value) :=
  match assoc col (df_columns df) with
  | Some vs => Ok vs
  | None => Raise KeyError
  end.

(** [df.drop(col, axis=1)] *)
Definition drop (df : DataFrame) (col : string) : result DataFrame :=
  if decide (col ∈ col_names df) then
    Ok (mkDataFrame (df_index df) (filter (λ p, p.1 ≠ col) (df_columns df)))
  else Raise KeyError.

(** [df[col] = values]: an existing column is replaced in place, a new one
    is appended on the right. *)
Definition setitem (df : DataFrame) (col : string) (values : list value)
  : result DataFrame :=
  if decide (length values = nrows df) then
    if decide (col ∈ col_names df) then
      Ok (mkDataFrame (df_index df)
            ((λ p, if decide (p.1 = col) then (col, values) else p)
               <$> df_columns df))
    else Ok (mkDataFrame (df_index df) (df_columns df ++ [(col, values)]))
  else Raise ValueError.

Fixpoint filter_mask {A} (m : list bool) (xs : list A) : list A :=
  match m, xs with
  | b :: m', x :: xs' => if b then x :: filter_mask m' xs' else filter_mask m' xs'
  | _, _ => []
  end.

Definition mask_columns (m : list bool) (cols : list (string * list value))
  : list (string * list value) :=
  (λ p, (p.1, filter_mask m p.2)) <$> cols.

(** [df[mask]] for a boolean array [mask] *)
Definition mask_rows (df : DataFrame) (m : list bool) : result DataFrame :=
  if decide (length m = nrows df) then
    Ok (mkDataFrame (filter_mask m (df_index df))
          (mask_columns m (df_columns df)))
  else Raise ValueError.

(** A row as [iterrows] yields it: its label and its cells by column. *)
Definition Row : Type := Z * list (string * value).

(** The first cell of every column, and the columns without it. *)
Definition heads (cols : list (string * list value)) : list (string * value) :=
  omap (λ p, (λ v, (p.1, v)) <$> head p.2) cols.

Definition tails (cols : list (string * list value))
  : list (string * list value) :=
  (λ p, (p.1, tail p.2)) <$> cols.

Fixpoint rows_of (idx : list Z) (cols : list (string * list value))
  : list Row :=
  match idx with
  | [] => []
  | i :: idx' => (i, heads cols) :: rows_of idx' (tails cols)
  end.

Definition iterrows (df : DataFrame) : list Row :=
  rows_of (df_index df) (df_columns df).

(** [row[col]] *)
Definition row_get (row : Row) (col : string) : result value :=
  match assoc col row.2 with
  | Some v => Ok v
  | None => Raise KeyError
  end.

(** ** Salary imputer *)

Definition is_zero (q : Q) : bool := Qeq_bool q 0.

Definition processZeroSalaries_body
    (districtAvgSalary : gmap Z Q) (substituteWithAvg : bool)
    (processedSalaries : gmap Z Q) (item : Z * Q) : result (gmap Z Q) :=
  let '(accountId, salary) := item in
  if is_zero salary then
    if substituteWithAvg then
      let* avg := dict_get districtAvgSalary accountId in
      Ok (<[accountId := avg]> processedSalaries)
    else
      Ok (<[accountId := 1%Q]> processedSalaries)
  else
    Ok (<[accountId := salary]> processedSalaries).

Definition processZeroSalaries
    (salaries districtAvgSalary : gmap Z Q) (substituteWithAvg : bool)
  : result (gmap Z Q) :=
  for_each (processZeroSalaries_body districtAvgSalary substituteWithAvg)
           (map_to_list salaries) ∅.

(** ** Feature joiner *)

(** The columns of the input tables that [combineFeatures] reads. *)
Module Loan.
Record t : Type := mk { loan_id : Z; account_id : Z }.
End Loan.

Module Disp.
Record t : Type := mk { account_id : Z; client_id : Z }.
End Disp.

(** A row of the clients table together with its index label. *)
Module Client.
Record t : Type := mk { index : nat; client_id : Z }.
End Client.

Record Features : Type := mkFeatures {
  gendersByLoan : list value;
  ageGroupByLoan : list value;
  effortRateByLoan : list Q;
  savingsRateByLoan : list Q;
  distCrimeByLoan : list Q;
  expensesByLoan : list Q;
  agesByLoan : list value
}.

Definition no_features : Features := mkFeatures [] [] [] [] [] [] [].

(** The inner loop over the dispositions: every matching row overwrites
    [clientId]. *)
Definition resolveClient (dispositions : list Disp.t) (accountId : Z)
  : option Z :=
  foldl (λ clientId rowDisp,
           if decide (Disp.account_id rowDisp = accountId)
           then Some (Disp.client_id rowDisp) else clientId)
        None dispositions.

(** [clients.index[clients['client_id'] == clientId][0]] *)
Definition clientIndexOf (clients : list Client.t) (clientId : Z)
  : result nat :=
  array_get
    (Client.index <$> filter (λ c, Client.client_id c = clientId) clients) 0.

Section joiner.
Variables (clients : list Client.t) (dispositions : list Disp.t)
          (genders ageGroups : list value)
          (effortRates savingsRates districtCrimeRates expenses : gmap Z Q)
          (ages : list value).

Definition combineFeatures_body (acc : Features) (row : Loan.t)
  : result Features :=
  let accountId := Loan.account_id row in
  let loanId := Loan.loan_id row in
  let* demo :=
    match resolveClient dispositions accountId with
    | Some clientId =>
        let* clientIndex := clientIndexOf clients clientId in
        let* gender := array_get genders clientIndex in
        let* ageGroup := array_get ageGroups clientIndex in
        let* age := array_get ages clientIndex in
        Ok (gendersByLoan acc ++ [gender],
            ageGroupByLoan acc ++ [ageGroup],
            agesByLoan acc ++ [age])
    | None =>
        Ok (gendersByLoan acc, ageGroupByLoan acc, agesByLoan acc)
    end in
  let* effortRate := dict_get effortRates loanId in
  let* savingsRate := dict_get savingsRates loanId in
  let* distCrime := dict_get districtCrimeRates accountId in
  let expense :=
    match dict_get expenses accountId with
    | Ok e => e
    | Raise _ => 0%Q
    end in
  Ok (mkFeatures demo.1.1 demo.1.2
        (effortRateByLoan acc ++ [effortRate])
        (savingsRateByLoan acc ++ [savingsRate])
        (distCrimeByLoan acc ++ [distCrime])
        (expensesByLoan acc ++ [expense])
        demo.2).

End joiner.

Definition combineFeatures (loans : list Loan.t) (clients : list Client.t)
    (dispositions : list Disp.t) (genders ageGroups : list value)
    (effortRates savingsRates districtCrimeRates expenses : gmap Z Q)
    (ages : list value) : result Features :=
  for_each
    (combineFeatures_body clients dispositions genders ageGroups
       effortRates savingsRates districtCrimeRates expenses ages)
    loans no_features.

(** ** Cleaner *)

Definition columnsToRemove : list string := ["loan_id"; "account_id"]%string.

Definition cleanData (loansDataFrame : DataFrame) : result DataFrame :=
  for_each drop columnsToRemove loansDataFrame.
(** ** Outlier filter *)

(** The float64 arithmetic of numpy and scipy.  It is library code and
    is taken as given: [float] are the floating-point numbers,
    [float_of q] the one a number is converted to, [zscore a] the array
    [scipy.stats.zscore] returns for a numeric column holding the
    numbers [a], [np_abs] and [float_lt] are [np.abs] and [<] on one
    entry. *)
Record FloatLib : Type := mkFloatLib {
  float : Type;
  float_of : Q → float;
  zscore : list Q → list float;
  np_abs : float → float;
  float_lt : float → float → bool
}.

(** A cell as an entry of a numeric array; text is none. *)
Definition to_float (v : value) : result Q :=
  match v with
  | VNum q => Ok q
  | VStr _ => Raise TypeError
  end.

Definition nonCategoricalColumns : list string :=
  ["savingsRate"; "distCrime"; "amount"; "duration"; "payments"; "expenses"]%string.

(** One round of the loop:
    [result = result[np.abs(stats.zscore(result[col])) < 3]]
    ([res] is the source's [result]).  A column has the dtype it had in
    the table the function was given ([object] as soon as one of its
    cells was text): selecting rows does not change it, and scipy
    raises on an [object] column whatever cells are left. *)
Definition removeOutliers_body (lib : FloatLib)
    (loansDataFrame res : DataFrame) (col : string) : result DataFrame :=
  let* column := getitem res col in
  let* original := getitem loansDataFrame col in
  let* dtype := map_each to_float original in
  let* a := map_each to_float column in
  mask_rows res
    ((λ z, float_lt lib (np_abs lib z) (float_of lib 3)) <$> zscore lib a).

Definition removeOutliers (lib : FloatLib) (loansDataFrame : DataFrame)
  : result DataFrame :=
  for_each (removeOutliers_body lib loansDataFrame) nonCategoricalColumns
    loansDataFrame.

(** ** Encoder *)

(** The order [sorted] and [np.unique] use on the cells of one column:
    numbers by magnitude, strings lexicographically by character code.
    Columns that mix the two are rejected before any comparison, so the
    cross cases are never reached. *)
Definition value_compare (a b : value) : comparison :=
  match a, b with
  | VNum p, VNum q => (p ?= q)%Q
  | VStr s, VStr t => String.compare s t
  | VNum _, VStr _ => Lt
  | VStr _, VNum _ => Gt
  end.

Definition is_num (v : value) : bool :=
  match v with VNum _ => true | VStr _ => false end.

Definition is_str (v : value) : bool :=
  match v with VStr _ => true | VNum _ => false end.

Definition uniform (y : list value) : bool :=
  forallb is_num y || forallb is_str y.

(** Insertion into an ascending list without repetitions. *)
Fixpoint insert_class (x : value) (cs : list value) : list value :=
  match cs with
  | [] => [x]
  | c :: cs' =>
      match value_compare x c with
      | Lt => x :: c :: cs'
      | Eq => c :: cs'
      | Gt => c :: insert_class x cs'
      end
  end.

(** [LabelEncoder.classes_]: the distinct observed values in ascending
    order. *)
Definition classes_of (y : list value) : list value :=
  foldr insert_class [] y.

(** Position of [x] in the class list. *)
Fixpoint index_of (x : value) (cs : list value) : nat :=
  match cs with
  | [] => 0
  | c :: cs' =>
      match value_compare x c with
      | Eq => 0%nat
      | _ => S (index_of x cs')
      end
  end.

Definition code_of (y : list value) (v : value) : Z :=
  Z.of_nat (index_of v (classes_of y)).

(** [LabelEncoder().fit_transform(y)] *)
Definition fit_transform (y : list value) : result (list value) :=
  if uniform y then Ok ((λ v, VNum (inject_Z (code_of y v))) <$> y)
  else Raise TypeError.

Record Date : Type := mkDate { year : Z; month : Z; day : Z }.

Section encoder.
(** [str] on a cell, and [utils.convertFullDate], which is not part of
    this file: both are taken as given. *)
Variables (py_str : value → string)
          (convertFullDate : string → result Date).

Definition split_date_body (acc : list Z * list Z * list Z) (row : Row)
  : result (list Z * list Z * list Z) :=
  let '(years, months, days) := acc in
  let* cell := row_get row "date" in
  let* date := convertFullDate (py_str cell) in
  Ok (years ++ [year date], months ++ [month date], days ++ [day date]).

Definition int_column (zs : list Z) : list value :=
  (λ z, VNum (inject_Z z)) <$> zs.

Definition labelEncoding (loansDataFrame : DataFrame) : result DataFrame :=
  let* gender := getitem loansDataFrame "gender" in
  let* encodedGender := fit_transform gender in
  let* ageGroup := getitem loansDataFrame "ageGroup" in
  let* encodedAgeGroup := fit_transform ageGroup in
  let* encodedDataFrame := drop loansDataFrame "gender" in
  let* encodedDataFrame := drop encodedDataFrame "ageGroup" in
  let* encodedDataFrame := setitem encodedDataFrame "gender" encodedGender in
  let* encodedDataFrame :=
    setitem encodedDataFrame "ageGroup" encodedAgeGroup in
  let* ymd :=
    for_each split_date_body (iterrows encodedDataFrame) ([], [], []) in
  let* encodedDataFrame := drop encodedDataFrame "date" in
  let* encodedDataFrame :=
    setitem encodedDataFrame "month" (int_column ymd.1.2) in
  setitem encodedDataFrame "day" (int_column ymd.2).
End encoder.

(** ** Validator and size report *)

Definition value_eqb (a b : value) : bool :=
  match value_compare a b with
  | Eq => true
  | _ => false
  end.

(** [Series.duplicated()]: a scan from the top that flags every value
    already met ([keep='first']). *)
Fixpoint duplicated_from (seen keys : list value) : list bool :=
  match keys with
  | [] => []
  | k :: keys' =>
      existsb (value_eqb k) seen :: duplicated_from (k :: seen) keys'
  end.

(** [df.duplicated(subset)] *)
Definition duplicated (df : DataFrame) (subset : string)
  : result (list bool) :=
  let* keys := getitem df subset in
  Ok (duplicated_from [] keys).

(** [df[df.duplicated(key)].shape[0]] *)
Definition count_duplicates (df : DataFrame) (key : string) : result nat :=
  let* flags := duplicated df key in
  let* repeated := mask_rows df flags in
  Ok (nrows repeated).

(** The line feed written [\n] in the source. *)
Definition nl : string :=
  String (Ascii.Ascii false true false true false false false false) "".

(** The text of either report: a title and one line per table, [str]
    of a count being its decimal notation. *)
Definition report (title : string)
    (accounts cards clients dispositions districts loans transactions : nat)
  : string :=
  title +:+ nl +:+ "Accounts: " +:+ pretty accounts
    +:+ nl +:+ "Cards: " +:+ pretty cards
    +:+ nl +:+ "Clients: " +:+ pretty clients
    +:+ nl +:+ "Dispositions: " +:+ pretty dispositions
    +:+ nl +:+ "Districts: " +:+ pretty districts
    +:+ nl +:+ "Loans: " +:+ pretty loans
    +:+ nl +:+ "Transactions: " +:+ pretty transactions +:+ nl.

Section reports.
(** [utils.log] is not part of this file; it is taken as given, with
    whatever it yields. *)
Variables (Out : Type) (log : string → bool → Out).

Definition checkForDuplicates
    (accounts cards clients dispositions districts loans transactions
       : DataFrame) (verbose : bool) : result Out :=
  let* accounts_duplicates := count_duplicates accounts "account_id" in
  let* cards_duplicates := count_duplicates cards "card_id" in
  let* clients_duplicates := count_duplicates clients "client_id" in
  let* dispositions_duplicates := count_duplicates dispositions "disp_id" in
  let* districts_duplicates := count_duplicates districts "code " in
  let* loans_duplicates := count_duplicates loans "loan_id" in
  let* transactions_duplicates :=
    count_duplicates transactions "trans_id" in
  let logMessage :=
    report "Dataset Duplicates:" accounts_duplicates cards_duplicates
      clients_duplicates dispositions_duplicates districts_duplicates
      loans_duplicates transactions_duplicates in
  Ok (log logMessage verbose).

Definition printDatasetSizes
    (accounts cards clients dispositions districts loans transactions
       : DataFrame) (verbose : bool) : Out :=
  let accounts_size := nrows accounts in
  let cards_size := nrows cards in
  let clients_size := nrows clients in
  let dispositions_size := nrows dispositions in
  let districts_size := nrows districts in
  let loans_size := nrows loans in
  let transactions_size := nrows transactions in
  let logMessage :=
    report "Dataset Sizes:" accounts_size cards_size clients_size
      dispositions_size districts_size loans_size transactions_size in
  log logMessage verbose.
End reports.

(** * Part II: specification vocabulary *)

(** ** Salary imputer *)

(** What the loop body stores for one entry of [salaries]; [None] stands
    for the failed lookup [districtAvgSalary[accountId]]. *)
Definition imputed (districtAvgSalary : gmap Z Q) (substituteWithAvg : bool)
    (accountId : Z) (salary : Q) : option Q :=
  if is_zero salary then
    if substituteWithAvg then districtAvgSalary !! accountId else Some 1%Q
  else Some salary.

(** Some account with salary 0 has no district average. *)
Definition missing_average (salaries districtAvgSalary : gmap Z Q) : Prop :=
  ∃ k v, salaries !! k = Some v ∧ (v == 0)%Q ∧ districtAvgSalary !! k = None.

(** ** Feature joiner *)

Section joiner_specs.
Variables (clients : list Client.t) (dispositions : list Disp.t)
          (genders ageGroups : list value)
          (effortRates savingsRates districtCrimeRates : gmap Z Q)
          (ages : list value).

(** The loan's account has a disposition. *)
Definition resolves (row : Loan.t) : bool :=
  bool_decide (is_Some (resolveClient dispositions (Loan.account_id row))).

(** The demographic part of the loop body goes through for [row]: either
    no disposition matches, or the resolved client is in the clients
    table and its label is a position of the three arrays. *)
Definition demographics_ok (row : Loan.t) : Prop :=
  match resolveClient dispositions (Loan.account_id row) with
  | None => True
  | Some clientId =>
      ∃ i, clientIndexOf clients clientId = Ok i
           ∧ is_Some (genders !! i) ∧ is_Some (ageGroups !! i)
           ∧ is_Some (ages !! i)
  end.

(** One of the three mandatory mappings has no entry for [row]. *)
Definition missing_rate (row : Loan.t) : Prop :=
  effortRates !! Loan.loan_id row = None
  ∨ savingsRates !! Loan.loan_id row = None
  ∨ districtCrimeRates !! Loan.account_id row = None.

Definition joinable (row : Loan.t) : Prop :=
  demographics_ok row ∧ ¬ missing_rate row.
End joiner_specs.

(** The entry of the expenses column for [row]: the account's expenses,
    or 0 when the mapping has none. *)
Definition expense_of (expenses : gmap Z Q) (row : Loan.t) : Q :=
  default 0%Q (expenses !! Loan.account_id row).

(** ** Outlier filter *)

(** The rows of a table, read off by position: the label and, for each
    column, the cell at that position. *)
Definition table_rows (df : DataFrame)
  : list (Z * list (string * option value)) :=
  imap (λ i label, (label, (λ p, (p.1, p.2 !! i)) <$> df_columns df))
    (df_index df).

(** The number in column [c] of a row (0 when the cell is not a number). *)
Definition number_in (c : string) (row : Z * list (string * option value))
  : Q :=
  match head (filter (λ p, p.1 = c) row.2) with
  | Some (_, Some (VNum q)) => q
  | _ => 0%Q
  end.

(** One step of the filter as the specification words it, on rows: the
    z-scores of column [c] are computed over the rows given, and the
    rows kept are those whose score has a magnitude below 3. *)
Definition spec_outlier_step (lib : FloatLib)
    (rows : list (Z * list (string * option value))) (c : string)
  : list (Z * list (string * option value)) :=
  (filter (λ rz, float_lt lib (np_abs lib rz.2) (float_of lib 3) = true)
     (zip rows (zscore lib (number_in c <$> rows)))).*1.

(** The library returns one score for each entry. *)
Definition aligned (lib : FloatLib) : Prop :=
  ∀ a, length (zscore lib a) = length a.

(** The scores of a sample without spread are not numbers, and a
    comparison with not-a-number is false. *)
Definition nan_without_spread (lib : FloatLib) : Prop :=
  ∀ a q, Forall (λ x, (x == q)%Q) a →
         Forall (λ z, float_lt lib (np_abs lib z) (float_of lib 3) = false)
           (zscore lib a).

(** Column [c] exists and holds numbers only. *)
Definition numeric_column (df : DataFrame) (c : string) : Prop :=
  ∃ qs, assoc c (df_columns df) = Some (VNum <$> qs).

(** Column [c] exists, holds numbers only, and they are all equal. *)
Definition constant_column (df : DataFrame) (c : string) : Prop :=
  ∃ q qs, assoc c (df_columns df) = Some (VNum <$> qs)
          ∧ Forall (λ x, (x == q)%Q) qs.

(** The table with the same columns and no rows. *)
Definition without_rows (df : DataFrame) : DataFrame :=
  mkDataFrame [] ((λ p, (p.1, [])) <$> df_columns df).

(** ** Encoder *)

Definition value_lt (a b : value) : Prop := value_compare a b = Lt.

(** [code] numbers the values of [y] by their place in the ascending list
    of the distinct values of [y]: there is a strictly ascending list of
    observed values in which every value of [y] is found, up to the
    equality of the order, at the position its code names. *)
Definition ascending_codes (y : list value) (code : value → Z) : Prop :=
  ∃ classes,
    StronglySorted value_lt classes
    ∧ (∀ c, c ∈ classes → c ∈ y)
    ∧ (∀ v, v ∈ y →
         ∃ i c, code v = Z.of_nat i ∧ classes !! i = Some c
                ∧ value_compare v c = Eq).

(** ** Validator *)

(** The number of flagged rows. *)
Definition count_true (flags : list bool) : nat :=
  length (filter (λ b, b = true) flags).

(** The seven tables with the key column each is checked on. *)
Definition key_columns
    (accounts cards clients dispositions districts loans transactions
       : DataFrame) : list (DataFrame * string) :=
  [(accounts, "account_id"); (cards, "card_id"); (clients, "client_id");
   (dispositions, "disp_id"); (districts, "code "); (loans, "loan_id");
   (transactions, "trans_id")]%string.

(** ** Feature joiner: contents of the columns *)

(** The entry of a demographic array that belongs to a loan: the one at
    the index label of the client its account resolves to. *)
Definition demographic_of (clients : list Client.t)
    (dispositions : list Disp.t) (array : list value) (row : Loan.t)
  : option value :=
  match resolveClient dispositions (Loan.account_id row) with
  | Some clientId =>
      match clientIndexOf clients clientId with
      | Ok clientIndex => array !! clientIndex
      | Raise _ => None
      end
  | None => None
  end.

(** Column by column concatenation. *)
Definition features_app (f1 f2 : Features) : Features :=
  mkFeatures
    (gendersByLoan f1 ++ gendersByLoan f2)
    (ageGroupByLoan f1 ++ ageGroupByLoan f2)
    (effortRateByLoan f1 ++ effortRateByLoan f2)
    (savingsRateByLoan f1 ++ savingsRateByLoan f2)
    (distCrimeByLoan f1 ++ distCrimeByLoan f2)
    (expensesByLoan f1 ++ expensesByLoan f2)
    (agesByLoan f1 ++ agesByLoan f2).

(** ** Cleaner and outlier filter: further vocabulary *)

(** The table without the columns labelled [col]. *)
Definition without_column (df : DataFrame) (col : string) : DataFrame :=
  mkDataFrame (df_index df) (filter (λ p, p.1 ≠ col) (df_columns df)).

(** ** Encoder: further vocabulary *)

(** The table with one more column on the right. *)
Definition append_column (df : DataFrame) (col : string)
    (values : list value) : DataFrame :=
  mkDataFrame (df_index df) (df_columns df ++ [(col, values)]).

(** The codes [fit_transform] writes for a column. *)
Definition codes_of (y : list value) : list value :=
  (λ v, VNum (inject_Z (code_of y v))) <$> y.

(** The table the encoder has built when it starts on the dates. *)
Definition encoded_categories (df : DataFrame) (gender ageGroup : list value)
  : DataFrame :=
  append_column
    (append_column
       (without_column (without_column df "gender") "ageGroup")
       "gender" (codes_of gender))
    "ageGroup" (codes_of ageGroup).

(** * Part III: sample tables *)

Definition sample_loans : DataFrame :=
  mkDataFrame [0; 1]
    [("loan_id"%string, [VNum 5314; VNum 5316]);
     ("account_id"%string, [VNum 1787; VNum 1801]);
     ("amount"%string, [VNum 96396; VNum 165960]);
     ("status"%string, [VNum (-1); VNum 1])].

Definition num_col (name : string) (qs : list Q) : string * list value :=
  (name, VNum <$> qs).

Definition alternating : list Q := [0; 1; 0; 1; 0; 1; 0; 1; 0; 1; 0; 1]%Q.

(** Twelve loans.  Loan 0 is an outlier in [amount]; loan 1 becomes an
    outlier in [duration] only once loan 0 is gone. *)
Definition sample_features : DataFrame :=
  mkDataFrame [0; 1; 2; 3; 4; 5; 6; 7; 8; 9; 10; 11]
    [num_col "savingsRate" alternating;
     num_col "distCrime" alternating;
     num_col "amount" [1000; 0; 0; 0; 0; 0; 0; 0; 0; 0; 0; 0]%Q;
     num_col "duration" [100; 10; 0; 0; 0; 0; 0; 0; 0; 0; 0; 0]%Q;
     num_col "payments" alternating;
     num_col "expenses" alternating;
     ("status"%string, VStr <$> ["A"; "B"; "A"; "B"; "A"; "B";
                                 "A"; "B"; "A"; "B"; "A"; "B"]%string)].

Definition sample_survivors : DataFrame :=
  mkDataFrame [2; 3; 4; 5; 6; 7; 8; 9; 10; 11]
    [num_col "savingsRate" [0; 1; 0; 1; 0; 1; 0; 1; 0; 1]%Q;
     num_col "distCrime" [0; 1; 0; 1; 0; 1; 0; 1; 0; 1]%Q;
     num_col "amount" [0; 0; 0; 0; 0; 0; 0; 0; 0; 0]%Q;
     num_col "duration" [0; 0; 0; 0; 0; 0; 0; 0; 0; 0]%Q;
     num_col "payments" [0; 1; 0; 1; 0; 1; 0; 1; 0; 1]%Q;
     num_col "expenses" [0; 1; 0; 1; 0; 1; 0; 1; 0; 1]%Q;
     ("status"%string, VStr <$> ["A"; "B"; "A"; "B"; "A"; "B";
                                 "A"; "B"; "A"; "B"]%string)].

(** Ten loans, nine with amount 100 and one with amount 1000000. *)
Definition sample_amounts : DataFrame :=
  mkDataFrame [0; 1; 2; 3; 4; 5; 6; 7; 8; 9]
    [num_col "amount"
       [100; 100; 100; 100; 100; 100; 100; 100; 100; 1000000]%Q].

(** Three loans whose six filtered columns are constant. *)
Definition sample_constant : DataFrame :=
  mkDataFrame [0; 1; 2]
    [num_col "savingsRate" [2; 2; 2]%Q;
     num_col "distCrime" [3; 3; 3]%Q;
     num_col "amount" [100; 100; 100]%Q;
     num_col "duration" [12; 12; 12]%Q;
     num_col "payments" [8; 8; 8]%Q;
     num_col "expenses" [0; 0; 0]%Q].

(** The loans of [sample_features]; the [duration] of loan 0 was
    entered as text. *)
Definition sample_text_duration : DataFrame :=
  mkDataFrame [0; 1; 2; 3; 4; 5; 6; 7; 8; 9; 10; 11]
    [num_col "savingsRate" alternating;
     num_col "distCrime" alternating;
     num_col "amount" [1000; 0; 0; 0; 0; 0; 0; 0; 0; 0; 0; 0]%Q;
     ("duration"%string,
      VStr "n/a" :: (VNum <$> [10; 0; 0; 0; 0; 0; 0; 0; 0; 0; 0]%Q));
     num_col "payments" alternating;
     num_col "expenses" alternating].

(** A stand-in, for the examples, of the float library: the scores in
    exact arithmetic.  A score [dev / sqrt var] with [var > 0] is kept
    as the pair of its numerator and the variance, and compared on
    squares; a sample without spread has scores that are not numbers.
    On the sample tables no score is near 3, so that rounding does not
    change which rows pass. *)
Inductive exact : Type :=
| ENaN
| ERatio (dev var : Q).

Definition Qsum (xs : list Q) : Q := foldr Qplus 0%Q xs.

Definition exact_mean (xs : list Q) : Q :=
  (Qsum xs / inject_Z (Z.of_nat (length xs)))%Q.

(** Population variance ([ddof = 0]). *)
Definition exact_variance (xs : list Q) : Q :=
  let mn := exact_mean xs in
  exact_mean ((λ x, (x - mn) * (x - mn))%Q <$> xs).

Definition exact_zscore (a : list Q) : list exact :=
  (λ x, if Qeq_bool (exact_variance a) 0 then ENaN
        else ERatio (x - exact_mean a) (exact_variance a)) <$> a.

Definition exact_abs (z : exact) : exact :=
  match z with
  | ENaN => ENaN
  | ERatio d v => ERatio (Qabs d) v
  end.

Definition Qltb (a b : Q) : bool := negb (Qle_bool b a).

(** [d / sqrt v < e / sqrt w], decided on squares according to the
    signs; a comparison with not-a-number is false. *)
Definition exact_lt (z t : exact) : bool :=
  match z, t with
  | ERatio d v, ERatio e w =>
      if Qle_bool 0 d
      then Qltb 0 e && Qltb (d * d * w) (e * e * v)
      else Qle_bool 0 e || Qltb (e * e * v) (d * d * w)
  | _, _ => false
  end.

Definition exact_lib : FloatLib :=
  mkFloatLib exact (λ q, ERatio q 1) exact_zscore exact_abs exact_lt.

(** Stand-ins, for the examples, of the two functions the encoder takes
    as given: [str] on a string cell is the string itself, and dates are
    written [YYYY-MM-DD]. *)
Definition sample_str (v : value) : string :=
  match v with
  | VStr s => s
  | VNum _ => ""
  end.

Definition digit (a : Ascii.ascii) : option Z :=
  let n := Z.of_N (Ascii.N_of_ascii a) - 48 in
  if (0 <=? n) && (n <=? 9) then Some n else None.

Definition digits (l : list Ascii.ascii) : option Z :=
  foldl (λ acc a, n ← acc; d ← digit a; Some (10 * n + d)) (Some 0) l.

Definition is_dash (a : Ascii.ascii) : bool :=
  (Ascii.N_of_ascii a =? 45)%N.

Definition sample_convertFullDate (s : string) : result Date :=
  match String.list_ascii_of_string s with
  | [y1; y2; y3; y4; s1; m1; m2; s2; d1; d2] =>
      match digits [y1; y2; y3; y4], digits [m1; m2], digits [d1; d2] with
      | Some y, Some m, Some d =>
          if is_dash s1 && is_dash s2
             && (1 <=? m) && (m <=? 12) && (1 <=? d) && (d <=? 31)
          then Ok (mkDate y m d) else Raise ValueError
      | _, _, _ => Raise ValueError
      end
  | _ => Raise ValueError
  end.

Definition sample_combined : DataFrame :=
  mkDataFrame [0; 1; 2]
    [("date"%string, VStr <$> ["1997-05-12"; "1993-07-05"; "1996-11-30"]%string);
     ("gender"%string, VStr <$> ["M"; "F"; "M"]%string);
     num_col "amount" [96396; 165960; 127080]%Q;
     ("ageGroup"%string, VStr <$> ["senior"; "adult"; "young"]%string)].

Definition sample_encoded : DataFrame :=
  mkDataFrame [0; 1; 2]
    [num_col "amount" [96396; 165960; 127080]%Q;
     num_col "gender" [1; 0; 1]%Q;
     num_col "ageGroup" [1; 0; 2]%Q;
     num_col "month" [5; 7; 11]%Q;
     num_col "day" [12; 5; 30]%Q].

(** Seven small raw tables; two accounts rows share an [account_id]. *)
Definition sample_accounts : DataFrame :=
  mkDataFrame [0; 1; 2]
    [num_col "account_id" [576; 3818; 576]%Q;
     num_col "district_id" [55; 74; 55]%Q].

Definition sample_cards : DataFrame :=
  mkDataFrame [0] [num_col "card_id" [1005]%Q].

Definition sample_clients : DataFrame :=
  mkDataFrame [0; 1] [num_col "client_id" [692; 4601]%Q].

Definition sample_dispositions : DataFrame :=
  mkDataFrame [0; 1]
    [num_col "disp_id" [692; 4601]%Q; num_col "client_id" [692; 4601]%Q;
     num_col "account_id" [576; 3818]%Q].

Definition sample_districts : DataFrame :=
  mkDataFrame [0; 1]
    [num_col "code " [55; 74]%Q;
     ("name "%string, VStr <$> ["Brno"; "Ostrava"]%string)].

Definition sample_transactions : DataFrame :=
  mkDataFrame [] [num_col "trans_id" []].

(** The second date has no thirteenth month. *)
Definition sample_bad_dates : DataFrame :=
  mkDataFrame [0; 1; 2]
    [("date"%string, VStr <$> ["1997-05-12"; "1993-13-05"; "1996-11-30"]%string);
     ("gender"%string, VStr <$> ["M"; "F"; "M"]%string);
     ("ageGroup"%string, VStr <$> ["senior"; "adult"; "young"]%string)].

(** * Part IV: properties *)

(** ** Salary imputer *)

Section salary_imputer.
Variables (districtAvgSalary : gmap Z Q) (substituteWithAvg : bool).

Local Abbreviation body :=
  (processZeroSalaries_body districtAvgSalary substituteWithAvg).
Local Abbreviation imp := (imputed districtAvgSalary substituteWithAvg).

Lemma body_imputed acc k v :
  body acc (k, v) =
    match imp k v with
    | Some w => Ok (<[k := w]> acc)
    | None => Raise KeyError
    end.
Proof.
  unfold processZeroSalaries_body, imputed, dict_get.
  destruct (is_zero v); [|done].
  destruct substituteWithAvg; [|done].
  by destruct (districtAvgSalary !! k).
Qed.

Lemma imputed_None k v :
  imp k v = None →
  (v == 0)%Q ∧ substituteWithAvg = true ∧ districtAvgSalary !! k = None.
Proof.
  unfold imputed, is_zero.
  destruct (Qeq_bool v 0) eqn:Hz; [|done].
  apply Qeq_bool_iff in Hz.
  by destruct substituteWithAvg.
Qed.

Lemma loop_raise_inv items acc e :
  for_each body items acc = Raise e →
  e = KeyError ∧ ∃ k v, (k, v) ∈ items ∧ imp k v = None.
Proof.
  revert acc. induction items as [|[k v] items IH]; intros acc;
    cbn [for_each].
  - discriminate.
  - rewrite body_imputed. destruct (imp k v) eqn:Hkv; cbn [bind].
    + intros [-> (k' & v' & Hin & Hnone)]%IH.
      split; [done|]. exists k', v'. split; [by right | done].
    + intros [= <-]. split; [done|]. exists k, v. split; [by left | done].
Qed.

Lemma loop_missing items acc k v :
  (k, v) ∈ items → imp k v = None →
  for_each body items acc = Raise KeyError.
Proof.
  intros Hin Hnone. revert acc.
  induction items as [|[k' v'] items IH]; intros acc.
  - by apply not_elem_of_nil in Hin.
  - cbn [for_each]. rewrite body_imputed.
    apply elem_of_cons in Hin as [Heq|Hin].
    + inversion Heq; subst. by rewrite Hnone.
    + destruct (imp k' v'); cbn [bind]; [by apply IH | done].
Qed.

Lemma loop_complete items acc :
  NoDup items.*1 →
  (∀ k v, (k, v) ∈ items → is_Some (imp k v)) →
  ∃ m, for_each body items acc = Ok m
     ∧ (∀ k v, (k, v) ∈ items → m !! k = imp k v)
     ∧ (∀ k, k ∉ items.*1 → m !! k = acc !! k).
Proof.
  revert acc. induction items as [|[k0 v0] items IH]; intros acc Hnd Hall.
  - exists acc. split; [done|]. split; [|done].
    intros k v Hin. by apply not_elem_of_nil in Hin.
  - simpl in Hnd. apply NoDup_cons in Hnd as [Hk0 Hnd].
    destruct (Hall k0 v0) as [w0 Hw0]; [left|].
    cbn [for_each]. rewrite body_imputed, Hw0. cbn [bind].
    destruct (IH (<[k0 := w0]> acc) Hnd) as (m & Hrun & Hin & Hout).
    { intros k v Hkv. apply Hall. by right. }
    exists m. split; [done|]. split.
    + intros k v Hkv. apply elem_of_cons in Hkv as [Heq|Hkv].
      * inversion Heq; subst.
        rewrite (Hout k0 Hk0), lookup_insert_eq. done.
      * by apply Hin.
    + intros k Hk. apply not_elem_of_cons in Hk as [Hne Hk].
      rewrite (Hout k Hk). by apply lookup_insert_ne.
Qed.
End salary_imputer.

(** C4.  When every needed district average exists, [processZeroSalaries]
    returns a mapping over exactly the keys of [salaries]; an account with
    a non-zero salary keeps it, an account with salary 0 gets the constant
    1 when [substituteWithAvg] is false and its district average when it
    is true. *)
Theorem processZeroSalaries_imputes
    (salaries districtAvgSalary : gmap Z Q) (substituteWithAvg : bool) :
  (substituteWithAvg = true → ¬ missing_average salaries districtAvgSalary) →
  ∃ processed,
    processZeroSalaries salaries districtAvgSalary substituteWithAvg
      = Ok processed
    ∧ dom processed = dom salaries
    ∧ ∀ accountId salary, salaries !! accountId = Some salary →
        (¬ (salary == 0)%Q → processed !! accountId = Some salary)
        ∧ ((salary == 0)%Q → substituteWithAvg = false →
             processed !! accountId = Some 1%Q)
        ∧ ((salary == 0)%Q → substituteWithAvg = true →
             ∃ avg, districtAvgSalary !! accountId = Some avg
                  ∧ processed !! accountId = Some avg).
Proof.
  intros Hpre.
  assert (Hall : ∀ k v, (k, v) ∈ map_to_list salaries →
            is_Some (imputed districtAvgSalary substituteWithAvg k v)).
  { intros k v Hkv%elem_of_map_to_list.
    destruct (imputed _ _ k v) eqn:Himp; [by eexists|].
    apply imputed_None in Himp as (Hz & Hb & Hnone).
    destruct (Hpre Hb). by exists k, v. }
  destruct (loop_complete districtAvgSalary substituteWithAvg
              (map_to_list salaries) ∅ (NoDup_fst_map_to_list _) Hall)
    as (m & Hrun & Hin & Hout).
  exists m. split; [exact Hrun|]. split.
  - apply set_eq. intros k. rewrite !elem_of_dom. split.
    + intros Hm. destruct (salaries !! k) as [v|] eqn:Hs; [by eexists|].
      rewrite Hout in Hm; [by rewrite lookup_empty in Hm|].
      intros ([k' v'] & -> & Hkv%elem_of_map_to_list)%list_elem_of_fmap.
      simpl in Hs. congruence.
    + intros [v Hs]. rewrite (Hin k v); [|by apply elem_of_map_to_list].
      apply Hall. by apply elem_of_map_to_list.
  - intros k v Hs.
    assert (Hm := Hin k v (proj2 (elem_of_map_to_list _ _ _) Hs)).
    unfold imputed, is_zero in Hm.
    destruct (Qeq_bool v 0) eqn:Hz.
    + apply Qeq_bool_iff in Hz. split; [done|]. split.
      * intros _ ->. exact Hm.
      * intros _ ->. destruct (Hall k v) as [a Ha];
          [by apply elem_of_map_to_list|].
        unfold imputed, is_zero in Ha.
        rewrite (proj2 (Qeq_bool_iff v 0) Hz) in Ha.
        exists a. split; [done|]. by rewrite Hm.
    + apply Qeq_bool_neq in Hz. split; [done|]. split; intros; done.
Qed.

Lemma processZeroSalaries_imputes_witness :
  ∃ processed,
    processZeroSalaries {[ 1 := 0%Q ]} {[ 1 := 900%Q ]} true = Ok processed
    ∧ dom processed = dom ({[ 1 := 0%Q ]} : gmap Z Q)
    ∧ ∀ accountId salary,
        ({[ 1 := 0%Q ]} : gmap Z Q) !! accountId = Some salary →
        (¬ (salary == 0)%Q → processed !! accountId = Some salary)
        ∧ ((salary == 0)%Q → true = false →
             processed !! accountId = Some 1%Q)
        ∧ ((salary == 0)%Q → true = true →
             ∃ avg, ({[ 1 := 900%Q ]} : gmap Z Q) !! accountId = Some avg
                  ∧ processed !! accountId = Some avg).
Proof.
  apply (processZeroSalaries_imputes {[ 1 := 0%Q ]} {[ 1 := 900%Q ]} true).
  intros _ (k & v & Hs & _ & Ha).
  apply lookup_singleton_Some in Hs as [<- _].
  rewrite lookup_singleton_eq in Ha. discriminate.
Defined.

(** C5.  [processZeroSalaries] raises exactly when [substituteWithAvg] is
    true and some account with salary 0 has no district average; the
    exception is then [KeyError], a lookup error, and no mapping is
    returned. *)
Theorem processZeroSalaries_raises
    (salaries districtAvgSalary : gmap Z Q) (substituteWithAvg : bool) :
  (processZeroSalaries salaries districtAvgSalary substituteWithAvg
     = Raise KeyError
   ↔ substituteWithAvg = true ∧ missing_average salaries districtAvgSalary)
  ∧ (∀ e, processZeroSalaries salaries districtAvgSalary substituteWithAvg
            = Raise e → e = KeyError ∧ is_LookupError e = true).
Proof.
  split; [split|].
  - intros (_ & k & v & Hin & Hnone)%loop_raise_inv.
    apply elem_of_map_to_list in Hin.
    apply imputed_None in Hnone as (Hz & Hb & Hnone).
    split; [done|]. by exists k, v.
  - intros [-> (k & v & Hs & Hz & Hnone)].
    apply (loop_missing _ _ _ _ k v).
    + by apply elem_of_map_to_list.
    + unfold imputed, is_zero.
      by rewrite (proj2 (Qeq_bool_iff v 0) Hz).
  - intros e [-> _]%loop_raise_inv. done.
Qed.

Example processZeroSalaries_example_avg :
  processZeroSalaries {[ 1 := 0%Q; 2 := 500%Q ]} {[ 1 := 900%Q ]} true
  = Ok {[ 1 := 900%Q; 2 := 500%Q ]}.
Proof. vm_compute. reflexivity. Qed.

Example processZeroSalaries_example_const :
  processZeroSalaries {[ 1 := 0%Q; 2 := 500%Q ]} ∅ false
  = Ok {[ 1 := 1%Q; 2 := 500%Q ]}.
Proof. vm_compute. reflexivity. Qed.

Example processZeroSalaries_example_missing :
  processZeroSalaries {[ 1 := 0%Q; 2 := 500%Q ]} {[ 2 := 900%Q ]} true
  = Raise KeyError.
Proof. vm_compute. reflexivity. Qed.

(** ** Loops *)

Lemma for_each_cons {A S} (body : S → A → result S) x xs s :
  for_each body (x :: xs) s
  = let* s' := body s x in for_each body xs s'.
Proof. reflexivity. Qed.

Lemma for_each_app {A S} (body : S → A → result S) xs ys s :
  for_each body (xs ++ ys) s
  = let* s' := for_each body xs s in for_each body ys s'.
Proof.
  revert s. induction xs as [|x xs IH]; intros s; [done|].
  cbn [app for_each]. destruct (body s x); cbn [bind]; [apply IH | done].
Qed.

(** ** Feature joiner *)

Lemma array_get_Ok {V} (a : list V) i v :
  array_get a i = Ok v ↔ a !! i = Some v.
Proof. unfold array_get. destruct (a !! i); naive_solver. Qed.

Lemma array_get_Raise {V} (a : list V) i e :
  array_get a i = Raise e ↔ a !! i = None ∧ e = IndexError.
Proof.
  unfold array_get. destruct (a !! i); split; try done.
  - by intros [? ?].
  - by intros [= <-].
  - by intros [_ ->].
Qed.

Lemma dict_get_Ok {V} (d : gmap Z V) k v :
  dict_get d k = Ok v ↔ d !! k = Some v.
Proof. unfold dict_get. destruct (d !! k); naive_solver. Qed.

Lemma dict_get_Raise {V} (d : gmap Z V) k e :
  dict_get d k = Raise e ↔ d !! k = None ∧ e = KeyError.
Proof.
  unfold dict_get. destruct (d !! k); split; try done.
  - by intros [? ?].
  - by intros [= <-].
  - by intros [_ ->].
Qed.


Lemma clientIndexOf_unknown clients clientId :
  clientId ∉ Client.client_id <$> clients →
  clientIndexOf clients clientId = Raise IndexError.
Proof.
  unfold clientIndexOf. induction clients as [|c clients IH]; [done|].
  rewrite fmap_cons. intros [Hne Hnot]%not_elem_of_cons.
  rewrite filter_cons_False by congruence. by apply IH.
Qed.

Section joiner_props.
Variables (clients : list Client.t) (dispositions : list Disp.t)
          (genders ageGroups : list value)
          (effortRates savingsRates districtCrimeRates expenses : gmap Z Q)
          (ages : list value).

Local Abbreviation body :=
  (combineFeatures_body clients dispositions genders ageGroups
     effortRates savingsRates districtCrimeRates expenses ages).
Local Abbreviation demo_ok :=
  (demographics_ok clients dispositions genders ageGroups ages).
Local Abbreviation rate_missing :=
  (missing_rate effortRates savingsRates districtCrimeRates).

Local Abbreviation expense_of := (expense_of expenses).

(** What a successful round of the loop appends. *)
Lemma body_Ok_inv acc row acc' :
  body acc row = Ok acc' →
  (∃ e s d,
      effortRates !! Loan.loan_id row = Some e
      ∧ savingsRates !! Loan.loan_id row = Some s
      ∧ districtCrimeRates !! Loan.account_id row = Some d
      ∧ effortRateByLoan acc' = effortRateByLoan acc ++ [e]
      ∧ savingsRateByLoan acc' = savingsRateByLoan acc ++ [s]
      ∧ distCrimeByLoan acc' = distCrimeByLoan acc ++ [d])
  ∧ expensesByLoan acc' = expensesByLoan acc ++ [expense_of row]
  ∧ match resolveClient dispositions (Loan.account_id row) with
    | None =>
        gendersByLoan acc' = gendersByLoan acc
        ∧ ageGroupByLoan acc' = ageGroupByLoan acc
        ∧ agesByLoan acc' = agesByLoan acc
    | Some clientId =>
        ∃ i g ag a,
          clientIndexOf clients clientId = Ok i
          ∧ genders !! i = Some g ∧ ageGroups !! i = Some ag
          ∧ ages !! i = Some a
          ∧ gendersByLoan acc' = gendersByLoan acc ++ [g]
          ∧ ageGroupByLoan acc' = ageGroupByLoan acc ++ [ag]
          ∧ agesByLoan acc' = agesByLoan acc ++ [a]
    end.
Proof.
  unfold combineFeatures_body, expense_of.
  destruct (resolveClient dispositions (Loan.account_id row)) as [cid|].
  - destruct (clientIndexOf clients cid) as [i|] eqn:Hi; [|done].
    cbn [bind].
    destruct (array_get genders i) as [g|] eqn:Hg; [|done].
    destruct (array_get ageGroups i) as [ag|] eqn:Hag; [|done].
    destruct (array_get ages i) as [a|] eqn:Ha; [|done].
    cbn [bind fst snd].
    destruct (dict_get effortRates _) as [e|] eqn:He; [|done].
    destruct (dict_get savingsRates _) as [s|] eqn:Hs; [|done].
    destruct (dict_get districtCrimeRates _) as [d|] eqn:Hd; [|done].
    cbn [bind]. intros [= <-]. cbn.
    apply array_get_Ok in Hg, Hag, Ha. apply dict_get_Ok in He, Hs, Hd.
    split; [by exists e, s, d|]. split.
    + unfold dict_get. by destruct (expenses !! Loan.account_id row).
    + by exists i, g, ag, a.
  - cbn [bind fst snd].
    destruct (dict_get effortRates _) as [e|] eqn:He; [|done].
    destruct (dict_get savingsRates _) as [s|] eqn:Hs; [|done].
    destruct (dict_get districtCrimeRates _) as [d|] eqn:Hd; [|done].
    cbn [bind]. intros [= <-]. cbn.
    apply dict_get_Ok in He, Hs, Hd.
    split; [by exists e, s, d|]. split; [|done].
    unfold dict_get. by destruct (expenses !! Loan.account_id row).
Qed.

(** Every exception of the loop body is a lookup error. *)
Lemma body_Raise_lookup acc row e :
  body acc row = Raise e → is_LookupError e = true.
Proof.
  unfold combineFeatures_body, clientIndexOf.
  repeat match goal with
    | |- context [match ?x with Some _ => _ | None => _ end] =>
        destruct x
    | |- context [array_get ?a ?i] =>
        let H := fresh in
        destruct (array_get a i) eqn:H;
        [|apply array_get_Raise in H as [_ ->]]
    | |- context [dict_get ?d ?k] =>
        lazymatch d with
        | expenses => fail
        | _ => let H := fresh in
               destruct (dict_get d k) eqn:H;
               [|apply dict_get_Raise in H as [_ ->]]
        end
    | _ => progress cbn [bind]
    end; by intros [= <-].
Qed.

(** The loop body succeeds on a joinable loan. *)
Lemma body_joinable acc row :
  joinable clients dispositions genders ageGroups
    effortRates savingsRates districtCrimeRates ages row →
  ∃ acc', body acc row = Ok acc'.
Proof.
  intros [Hdemo Hrates]. unfold demographics_ok in Hdemo.
  unfold missing_rate in Hrates.
  destruct (effortRates !! Loan.loan_id row) as [e|] eqn:He;
    [|destruct Hrates; by left].
  destruct (savingsRates !! Loan.loan_id row) as [s|] eqn:Hs;
    [|destruct Hrates; right; by left].
  destruct (districtCrimeRates !! Loan.account_id row) as [d|] eqn:Hd;
    [|destruct Hrates; right; by right].
  apply dict_get_Ok in He, Hs, Hd.
  unfold combineFeatures_body.
  destruct (resolveClient dispositions (Loan.account_id row)) as [cid|].
  - destruct Hdemo as (i & -> & [g Hg] & [ag Hag] & [a Ha]).
    apply array_get_Ok in Hg, Hag, Ha.
    cbn [bind]. rewrite Hg, Hag, Ha. cbn [bind].
    rewrite He, Hs, Hd. cbn [bind]. by eexists.
  - cbn [bind]. rewrite He, Hs, Hd. cbn [bind]. by eexists.
Qed.

(** A missing mandatory rate makes the loop body raise. *)
Lemma body_missing_rate acc row :
  rate_missing row → ∃ e, body acc row = Raise e.
Proof.
  intros Hmiss.
  destruct (body acc row) as [acc'|e] eqn:Hrun; [|by exists e].
  apply body_Ok_inv in Hrun as [(e & s & d & He & Hs & Hd & _) _].
  destruct Hmiss as [?|[?|?]]; congruence.
Qed.

Lemma body_missing_rate_KeyError acc row :
  demo_ok row → rate_missing row → body acc row = Raise KeyError.
Proof.
  intros Hdemo Hmiss. unfold demographics_ok in Hdemo.
  unfold combineFeatures_body.
  assert (Hrest : ∀ demo : list value * list value * list value,
    (let* effortRate := dict_get effortRates (Loan.loan_id row) in
     let* savingsRate := dict_get savingsRates (Loan.loan_id row) in
     let* distCrime :=
       dict_get districtCrimeRates (Loan.account_id row) in
     Ok (mkFeatures demo.1.1 demo.1.2
           (effortRateByLoan acc ++ [effortRate])
           (savingsRateByLoan acc ++ [savingsRate])
           (distCrimeByLoan acc ++ [distCrime])
           (expensesByLoan acc ++
              [match dict_get expenses (Loan.account_id row) with
               | Ok e => e
               | Raise _ => 0%Q
               end])
           demo.2)) = Raise KeyError).
  { intros demo. unfold dict_get.
    destruct Hmiss as [->|[Hs|Hd]]; [done| |].
    - destruct (effortRates !! _); cbn [bind]; by rewrite ?Hs.
    - destruct (effortRates !! _); cbn [bind]; [|done].
      destruct (savingsRates !! _); cbn [bind]; by rewrite ?Hd. }
  destruct (resolveClient dispositions (Loan.account_id row)) as [cid|].
  - destruct Hdemo as (i & -> & [g Hg] & [ag Hag] & [a Ha]).
    apply array_get_Ok in Hg, Hag, Ha.
    cbn [bind]. rewrite Hg, Hag, Ha. cbn [bind]. apply Hrest.
  - cbn [bind]. apply Hrest.
Qed.

Lemma run_Raise_lookup loans acc e :
  for_each body loans acc = Raise e → is_LookupError e = true.
Proof.
  revert acc. induction loans as [|row loans IH]; intros acc;
    cbn [for_each]; [done|].
  destruct (body acc row) eqn:Hrow; cbn [bind].
  - apply IH.
  - intros [= <-]. by eapply body_Raise_lookup.
Qed.

Lemma run_missing_rate loans acc row :
  row ∈ loans → rate_missing row → ∃ e, for_each body loans acc = Raise e.
Proof.
  intros Hin Hmiss. revert acc.
  induction loans as [|row' loans IH]; intros acc.
  - by apply not_elem_of_nil in Hin.
  - cbn [for_each]. apply elem_of_cons in Hin as [<-|Hin].
    + destruct (body_missing_rate acc row Hmiss) as [e ->]. by exists e.
    + destruct (body acc row'); cbn [bind]; [by apply IH | by eexists].
Qed.

Lemma run_joinable loans acc :
  Forall (joinable clients dispositions genders ageGroups
            effortRates savingsRates districtCrimeRates ages) loans →
  ∃ f, for_each body loans acc = Ok f.
Proof.
  intros Hall. revert acc.
  induction Hall as [|row loans Hrow _ IH]; intros acc; [by eexists|].
  cbn [for_each]. destruct (body_joinable acc row Hrow) as [acc' ->].
  cbn [bind]. apply IH.
Qed.

(** Lengths and contents of the columns after a successful run. *)
Lemma run_Ok_columns loans acc f :
  for_each body loans acc = Ok f →
  expensesByLoan f = expensesByLoan acc ++ (expense_of <$> loans)
  ∧ length (effortRateByLoan f)
    = (length (effortRateByLoan acc) + length loans)%nat
  ∧ length (savingsRateByLoan f)
    = (length (savingsRateByLoan acc) + length loans)%nat
  ∧ length (distCrimeByLoan f)
    = (length (distCrimeByLoan acc) + length loans)%nat
  ∧ length (gendersByLoan f)
    = (length (gendersByLoan acc)
       + length (filter (λ r, resolves dispositions r = true) loans))%nat
  ∧ length (ageGroupByLoan f)
    = (length (ageGroupByLoan acc)
       + length (filter (λ r, resolves dispositions r = true) loans))%nat
  ∧ length (agesByLoan f)
    = (length (agesByLoan acc)
       + length (filter (λ r, resolves dispositions r = true) loans))%nat.
Proof.
  revert acc. induction loans as [|row loans IH]; intros acc;
    cbn [for_each].
  - intros [= <-]. rewrite filter_nil, fmap_nil, app_nil_r.
    cbn [length]. repeat split; lia.
  - destruct (body acc row) as [acc'|] eqn:Hrow; cbn [bind]; [|done].
    intros (Hx & He & Hs & Hd & Hg & Hag & Ha)%IH.
    apply body_Ok_inv in Hrow
      as ((e & s & d & _ & _ & _ & He' & Hs' & Hd') & Hx' & Hdemo).
    rewrite Hx, He, Hs, Hd, Hg, Hag, Ha, Hx', He', Hs', Hd'.
    rewrite !length_app, fmap_cons, <- app_assoc. cbn [length app].
    destruct (resolveClient dispositions (Loan.account_id row))
      as [cid|] eqn:Hres.
    + destruct Hdemo as (i & g & ag & a & _ & _ & _ & _ & -> & -> & ->).
      rewrite filter_cons_True
        by (unfold resolves; rewrite Hres; apply bool_decide_eq_true;
            by eexists).
      rewrite !length_app. cbn [length]. repeat split; lia.
    + destruct Hdemo as (-> & -> & ->).
      rewrite filter_cons_False
        by (unfold resolves; rewrite Hres;
            intros [? ?]%bool_decide_eq_true; done).
      repeat split; lia.
Qed.
End joiner_props.


Example resolveClient_two_owners :
  resolveClient [Disp.mk 10 1; Disp.mk 20 2; Disp.mk 10 3; Disp.mk 30 4] 10
  = Some 3.
Proof. reflexivity. Qed.

Section joiner_results.
Variables (clients : list Client.t) (dispositions : list Disp.t)
          (genders ageGroups : list value)
          (effortRates savingsRates districtCrimeRates expenses : gmap Z Q)
          (ages : list value).

Local Abbreviation run loans :=
  (combineFeatures loans clients dispositions genders ageGroups
     effortRates savingsRates districtCrimeRates expenses ages).

(** After a successful run the four rate columns have one entry per
    loan, while the three demographic columns have one entry per loan
    whose account has a disposition. *)
Lemma combineFeatures_column_lengths loans f :
  run loans = Ok f →
  length (effortRateByLoan f) = length loans
  ∧ length (savingsRateByLoan f) = length loans
  ∧ length (distCrimeByLoan f) = length loans
  ∧ length (expensesByLoan f) = length loans
  ∧ length (gendersByLoan f)
    = length (filter (λ r, resolves dispositions r = true) loans)
  ∧ length (ageGroupByLoan f)
    = length (filter (λ r, resolves dispositions r = true) loans)
  ∧ length (agesByLoan f)
    = length (filter (λ r, resolves dispositions r = true) loans).
Proof.
  intros (Hx & He & Hs & Hd & Hg & Hag & Ha)%run_Ok_columns.
  rewrite Hx, He, Hs, Hd, Hg, Hag, Ha. cbn [no_features expensesByLoan
    effortRateByLoan savingsRateByLoan distCrimeByLoan gendersByLoan
    ageGroupByLoan agesByLoan app length].
  by rewrite length_fmap.
Qed.


(** C6.  A run over joinable loans succeeds whatever [expenses] holds,
    and its expenses column has, for each loan in order, the account's
    expenses or 0 when the mapping has no entry.  A loan without an
    entry in [effortRates], [savingsRates] or [districtCrimeRates] makes
    the run raise a lookup error; that error is [KeyError] when the loan
    is reached and its demographic part goes through. *)
Theorem combineFeatures_lookup_policy (loans : list Loan.t) :
  (Forall (joinable clients dispositions genders ageGroups
             effortRates savingsRates districtCrimeRates ages) loans →
   ∃ f, run loans = Ok f
        ∧ expensesByLoan f = expense_of expenses <$> loans)
  ∧ (∀ row, row ∈ loans →
       missing_rate effortRates savingsRates districtCrimeRates row →
       ∃ e, run loans = Raise e ∧ is_LookupError e = true)
  ∧ (∀ before row after acc,
       loans = before ++ row :: after →
       run before = Ok acc →
       demographics_ok clients dispositions genders ageGroups ages row →
       missing_rate effortRates savingsRates districtCrimeRates row →
       run loans = Raise KeyError).
Proof.
  split; [|split].
  - intros Hall.
    destruct (run_joinable clients dispositions genders ageGroups
                effortRates savingsRates districtCrimeRates expenses ages
                loans no_features Hall) as [f Hf].
    exists f. split; [exact Hf|].
    by apply run_Ok_columns in Hf as [-> _].
  - intros row Hin Hmiss.
    destruct (run_missing_rate clients dispositions genders ageGroups
                effortRates savingsRates districtCrimeRates expenses ages
                loans no_features row Hin Hmiss) as [e He].
    exists e. split; [exact He|]. by eapply run_Raise_lookup.
  - intros before row after acc -> Hbefore Hdemo Hmiss.
    unfold combineFeatures in *. rewrite for_each_app, Hbefore.
    cbn [bind for_each].
    by rewrite body_missing_rate_KeyError.
Qed.

(** C10.  When the loop reaches a loan whose account resolves to a
    [client_id] that no row of the clients table carries, the run stops
    with [IndexError]; the loan is not treated as one without client. *)
Theorem combineFeatures_unknown_client
    (before : list Loan.t) (row : Loan.t) (after : list Loan.t)
    (acc : Features) (clientId : Z) :
  run before = Ok acc →
  resolveClient dispositions (Loan.account_id row) = Some clientId →
  clientId ∉ Client.client_id <$> clients →
  run (before ++ row :: after) = Raise IndexError.
Proof.
  intros Hbefore Hres Hunknown.
  unfold combineFeatures in *. rewrite for_each_app, Hbefore.
  cbn [bind for_each]. unfold combineFeatures_body.
  by rewrite Hres, clientIndexOf_unknown.
Qed.
End joiner_results.

Lemma combineFeatures_unknown_client_witness :
  combineFeatures ([Loan.mk 1 10] ++ Loan.mk 2 20 :: [])
    [Client.mk 0 7] [Disp.mk 10 7; Disp.mk 20 8]
    [VStr "F"] [VStr "adult"] {[ 1 := 3%Q; 2 := 4%Q ]} {[ 1 := 5%Q; 2 := 6%Q ]}
    {[ 10 := 7%Q; 20 := 8%Q ]} ∅ [VNum 40]
  = Raise IndexError.
Proof.
  apply (combineFeatures_unknown_client [Client.mk 0 7]
           [Disp.mk 10 7; Disp.mk 20 8] [VStr "F"] [VStr "adult"]
           {[ 1 := 3%Q; 2 := 4%Q ]} {[ 1 := 5%Q; 2 := 6%Q ]}
           {[ 10 := 7%Q; 20 := 8%Q ]} ∅ [VNum 40]
           [Loan.mk 1 10] (Loan.mk 2 20) []
           (mkFeatures [VStr "F"] [VStr "adult"] [3%Q] [5%Q] [7%Q] [0%Q]
              [VNum 40]) 8).
  - vm_compute. reflexivity.
  - reflexivity.
  - cbn. intros Hin%list_elem_of_singleton. discriminate.
Defined.

Lemma combineFeatures_lookup_policy_witness :
  (∃ f, combineFeatures [Loan.mk 1 10; Loan.mk 2 20]
          [Client.mk 0 7] [Disp.mk 20 7] [VStr "F"] [VStr "adult"]
          {[ 1 := 3%Q; 2 := 4%Q ]} {[ 1 := 5%Q; 2 := 6%Q ]}
          {[ 10 := 7%Q; 20 := 8%Q ]} {[ 20 := 9%Q ]} [VNum 40] = Ok f
        ∧ expensesByLoan f
          = expense_of {[ 20 := 9%Q ]} <$> [Loan.mk 1 10; Loan.mk 2 20])
  ∧ (∃ e, combineFeatures [Loan.mk 1 10; Loan.mk 3 20]
            [Client.mk 0 7] [Disp.mk 20 7] [VStr "F"] [VStr "adult"]
            {[ 1 := 3%Q; 2 := 4%Q ]} {[ 1 := 5%Q; 2 := 6%Q ]}
            {[ 10 := 7%Q; 20 := 8%Q ]} {[ 20 := 9%Q ]} [VNum 40] = Raise e
          ∧ is_LookupError e = true).
Proof.
  split.
  - apply (proj1 (combineFeatures_lookup_policy
                    [Client.mk 0 7] [Disp.mk 20 7] [VStr "F"] [VStr "adult"]
                    {[ 1 := 3%Q; 2 := 4%Q ]} {[ 1 := 5%Q; 2 := 6%Q ]}
                    {[ 10 := 7%Q; 20 := 8%Q ]} {[ 20 := 9%Q ]} [VNum 40]
                    [Loan.mk 1 10; Loan.mk 2 20])).
    repeat apply Forall_cons_2; [..|apply Forall_nil_2]; split.
    + exact I.
    + intros [H|[H|H]]; vm_compute in H; discriminate H.
    + exists 0%nat. repeat split; by eexists.
    + intros [H|[H|H]]; vm_compute in H; discriminate H.
  - apply (proj1 (proj2 (combineFeatures_lookup_policy
                    [Client.mk 0 7] [Disp.mk 20 7] [VStr "F"] [VStr "adult"]
                    {[ 1 := 3%Q; 2 := 4%Q ]} {[ 1 := 5%Q; 2 := 6%Q ]}
                    {[ 10 := 7%Q; 20 := 8%Q ]} {[ 20 := 9%Q ]} [VNum 40]
                    [Loan.mk 1 10; Loan.mk 3 20])) (Loan.mk 3 20)).
    + right. left.
    + left. reflexivity.
Defined.

Example combineFeatures_missing_effortRate :
  combineFeatures [Loan.mk 1 10; Loan.mk 3 20]
    [Client.mk 0 7] [Disp.mk 20 7] [VStr "F"] [VStr "adult"]
    {[ 1 := 3%Q; 2 := 4%Q ]} {[ 1 := 5%Q; 2 := 6%Q ]}
    {[ 10 := 7%Q; 20 := 8%Q ]} {[ 20 := 9%Q ]} [VNum 40]
  = Raise KeyError.
Proof. vm_compute. reflexivity. Qed.

(** C1.  Two loans, the first on an account without disposition: the run
    succeeds, the rate columns have two entries, the demographic columns
    only one, so the second loan's gender sits at the first loan's
    position. *)
Theorem combineFeatures_gap_misaligns :
  combineFeatures [Loan.mk 1 10; Loan.mk 2 20]
    [Client.mk 0 7] [Disp.mk 20 7]
    [VStr "F"] [VStr "adult"] {[ 1 := 3%Q; 2 := 4%Q ]} {[ 1 := 5%Q; 2 := 6%Q ]}
    {[ 10 := 7%Q; 20 := 8%Q ]} {[ 20 := 9%Q ]} [VNum 40]
  = Ok (mkFeatures [VStr "F"] [VStr "adult"] [3%Q; 4%Q] [5%Q; 6%Q]
          [7%Q; 8%Q] [0%Q; 9%Q] [VNum 40]).
Proof. vm_compute. reflexivity. Qed.

(** ** Data frames: columns *)

Lemma assoc_None {A} c (l : list (string * A)) :
  assoc c l = None ↔ c ∉ l.*1.
Proof.
  induction l as [|[n a] l IH]; cbn [assoc fmap list_fmap fst].
  - split; [intros _; apply not_elem_of_nil | done].
  - rewrite not_elem_of_cons. destruct (decide (n = c)) as [->|Hne].
    + split; [done | by intros [? _]].
    + rewrite IH. split; [by intros ? | by intros [_ ?]].
Qed.

Lemma assoc_is_Some {A} c (l : list (string * A)) :
  is_Some (assoc c l) ↔ c ∈ l.*1.
Proof.
  rewrite <- not_eq_None_Some, assoc_None.
  split; [apply dec_stable | by intros ? ?].
Qed.

Lemma assoc_drop {A} c d (l : list (string * A)) :
  assoc c (filter (λ p, p.1 ≠ d) l)
  = if decide (c = d) then None else assoc c l.
Proof.
  induction l as [|[n a] l IH]; [by destruct (decide (c = d))|].
  rewrite filter_cons. cbn [fst].
  destruct (decide (n ≠ d)) as [Hnd|Hnd]; cbn [assoc].
  - destruct (decide (n = c)) as [->|_]; [|exact IH].
    by rewrite decide_False.
  - apply dec_stable in Hnd as ->. rewrite IH.
    destruct (decide (c = d)) as [->|Hcd]; [done|].
    by rewrite decide_False.
Qed.

Lemma names_drop {A} c d (l : list (string * A)) :
  c ∈ (filter (λ p, p.1 ≠ d) l).*1 ↔ c ≠ d ∧ c ∈ l.*1.
Proof.
  rewrite <- !assoc_is_Some, assoc_drop.
  destruct (decide (c = d)).
  - split; [by intros [? ?] | by intros [? _]].
  - split; [by intros ? | by intros [_ ?]].
Qed.

Lemma drop_Ok df col :
  col ∈ col_names df →
  drop df col
  = Ok (mkDataFrame (df_index df) (filter (λ p, p.1 ≠ col) (df_columns df))).
Proof. intros Hin. unfold drop. by rewrite decide_True. Qed.

Lemma drop_Raise df col :
  col ∉ col_names df → drop df col = Raise KeyError.
Proof. intros Hin. unfold drop. by rewrite decide_False. Qed.

(** ** Cleaner *)

(** C8.  On a table that has the columns [loan_id] and [account_id],
    [cleanData] returns the table without the columns [loan_id] and
    [account_id]: neither name is a column of the result, and the rows
    and every other column, in the same order and with the same cells,
    are kept. *)
Theorem cleanData_drops_ids (loansDataFrame : DataFrame) :
  "loan_id"%string ∈ col_names loansDataFrame →
  "account_id"%string ∈ col_names loansDataFrame →
  ∃ clean,
    cleanData loansDataFrame = Ok clean
    ∧ df_index clean = df_index loansDataFrame
    ∧ df_columns clean
      = filter (λ p, p.1 ≠ "loan_id"%string ∧ p.1 ≠ "account_id"%string)
          (df_columns loansDataFrame)
    ∧ ("loan_id"%string ∉ (df_columns clean).*1)
    ∧ ("account_id"%string ∉ (df_columns clean).*1)
    ∧ (∀ c, c ∈ (df_columns clean).*1
            ↔ c ∈ (df_columns loansDataFrame).*1
              ∧ c ≠ "loan_id"%string ∧ c ≠ "account_id"%string)
    ∧ (∀ c, c ≠ "loan_id"%string → c ≠ "account_id"%string →
            getitem clean c = getitem loansDataFrame c).
Proof.
  intros Hloan Hacc. unfold cleanData, columnsToRemove.
  cbn [for_each]. rewrite (drop_Ok _ _ Hloan). cbn [bind].
  rewrite drop_Ok
    by (unfold col_names; cbn [df_columns]; by apply names_drop).
  cbn [bind df_index df_columns].
  eexists. split; [reflexivity|]. cbn [df_index df_columns].
  split; [done|].
  assert (Hcols :
    filter (λ p : string * list value, p.1 ≠ "account_id"%string)
      (filter (λ p, p.1 ≠ "loan_id"%string) (df_columns loansDataFrame))
    = filter (λ p, p.1 ≠ "loan_id"%string ∧ p.1 ≠ "account_id"%string)
        (df_columns loansDataFrame)).
  { rewrite list_filter_filter. apply list_filter_iff. intros [n vs].
    cbn [fst]. tauto. }
  split; [exact Hcols|].
  assert (Hnames : ∀ c,
    c ∈ (filter (λ p : string * list value, p.1 ≠ "account_id"%string)
           (filter (λ p, p.1 ≠ "loan_id"%string)
              (df_columns loansDataFrame))).*1
    ↔ c ∈ (df_columns loansDataFrame).*1
      ∧ c ≠ "loan_id"%string ∧ c ≠ "account_id"%string).
  { intros c. rewrite !names_drop. tauto. }
  split; [rewrite Hnames; by intros (_ & ? & _)|].
  split; [rewrite Hnames; by intros (_ & _ & ?)|].
  split; [exact Hnames|].
  intros c Hc1 Hc2. unfold getitem. cbn [df_columns].
  rewrite !assoc_drop, !decide_False by done. done.
Qed.

Lemma cleanData_drops_ids_witness :
  ∃ clean,
    cleanData sample_loans = Ok clean
    ∧ df_index clean = df_index sample_loans
    ∧ df_columns clean
      = filter (λ p, p.1 ≠ "loan_id"%string ∧ p.1 ≠ "account_id"%string)
          (df_columns sample_loans)
    ∧ ("loan_id"%string ∉ (df_columns clean).*1)
    ∧ ("account_id"%string ∉ (df_columns clean).*1)
    ∧ (∀ c, c ∈ (df_columns clean).*1
            ↔ c ∈ (df_columns sample_loans).*1
              ∧ c ≠ "loan_id"%string ∧ c ≠ "account_id"%string)
    ∧ (∀ c, c ≠ "loan_id"%string → c ≠ "account_id"%string →
            getitem clean c = getitem sample_loans c).
Proof.
  apply (cleanData_drops_ids sample_loans).
  - by apply (bool_decide_unpack _).
  - by apply (bool_decide_unpack _).
Defined.

Example cleanData_sample :
  cleanData sample_loans
  = Ok (mkDataFrame [0; 1]
          [("amount"%string, [VNum 96396; VNum 165960]);
           ("status"%string, [VNum (-1); VNum 1])]).
Proof. vm_compute. reflexivity. Qed.

Example cleanData_twice_raises :
  (let* once := cleanData sample_loans in cleanData once) = Raise KeyError.
Proof. vm_compute. reflexivity. Qed.

(** ** Data frames: rows *)

Lemma filter_mask_nil_r {A} (m : list bool) : filter_mask m (@nil A) = [].
Proof. by destruct m. Qed.

Lemma filter_mask_cons_tail {A} b (m : list bool) (xs : list A) :
  filter_mask (b :: m) xs
  = (if b then option_list (head xs) else []) ++ filter_mask m (tail xs).
Proof.
  destruct xs as [|x xs]; cbn [filter_mask head tail option_list].
  - rewrite filter_mask_nil_r. by destruct b.
  - by destruct b.
Qed.

Lemma filter_mask_fmap {A B} (f : A → B) m (xs : list A) :
  filter_mask m (f <$> xs) = f <$> filter_mask m xs.
Proof.
  revert xs. induction m as [|b m IH]; intros [|x xs]; try done.
  cbn [filter_mask fmap list_fmap]. destruct b; [|apply IH].
  by rewrite IH.
Qed.

Lemma filter_mask_length {A} m (xs : list A) :
  (length (filter_mask m xs) ≤ length xs)%nat.
Proof.
  revert xs. induction m as [|b m IH]; intros [|x xs]; cbn; try lia.
  specialize (IH xs). destruct b; cbn; lia.
Qed.

Lemma filter_mask_length_eq {A B} m (xs : list A) (ys : list B) :
  length xs = length ys →
  length (filter_mask m xs) = length (filter_mask m ys).
Proof.
  revert xs ys. induction m as [|b m IH]; intros [|x xs] [|y ys];
    cbn; try done.
  intros [= Hlen]. destruct b; cbn; [f_equal|]; by apply IH.
Qed.

(** Selecting by a mask computed cell by cell is filtering. *)
Lemma filter_mask_pred {A} (f : A → bool) (xs : list A) :
  filter_mask (f <$> xs) xs = filter (λ x, f x = true) xs.
Proof.
  induction xs as [|x xs IH]; [done|].
  cbn [fmap list_fmap filter_mask]. rewrite filter_cons, IH.
  destruct (f x); [by rewrite decide_True | by rewrite decide_False].
Qed.

Lemma filter_mask_all_false {A} (xs : list A) (m : list bool) :
  Forall (λ b, b = false) m → filter_mask m xs = [].
Proof.
  intros Hm. revert xs. induction Hm as [|b m -> _ IH]; intros [|x xs];
    cbn; auto.
Qed.

Lemma assoc_fmap_snd {A B} (f : A → B) c (l : list (string * A)) :
  assoc c ((λ p, (p.1, f p.2)) <$> l) = f <$> assoc c l.
Proof.
  induction l as [|[n a] l IH]; [done|].
  cbn [fmap list_fmap assoc fst snd]. by destruct (decide (n = c)).
Qed.

Lemma names_fmap_snd {A B} (f : A → B) (l : list (string * A)) :
  ((λ p, (p.1, f p.2)) <$> l).*1 = l.*1.
Proof. rewrite <- list_fmap_compose. by apply list_fmap_ext. Qed.

Lemma assoc_heads c (cols : list (string * list value)) v vs :
  assoc c cols = Some (v :: vs) → assoc c (heads cols) = Some v.
Proof.
  unfold heads. induction cols as [|[n ws] cols IH]; [done|].
  cbn [assoc omap list_omap fst snd].
  destruct (decide (n = c)) as [->|Hne].
  - intros [= ->]. cbn [head fmap option_fmap option_map assoc].
    by rewrite decide_True.
  - intros Hc. destruct (head ws); cbn [fmap option_fmap option_map];
      [cbn [assoc]; rewrite decide_False by done|]; by apply IH.
Qed.

Lemma assoc_tails c (cols : list (string * list value)) :
  assoc c (tails cols) = tail <$> assoc c cols.
Proof. apply assoc_fmap_snd. Qed.

Lemma assoc_mask_columns c m (cols : list (string * list value)) :
  assoc c (mask_columns m cols) = filter_mask m <$> assoc c cols.
Proof. apply assoc_fmap_snd. Qed.

(** Reading column [c] cell by cell off the rows gives the column. *)
Lemma rows_of_column c idx cols vs :
  assoc c cols = Some vs → length vs = length idx →
  (λ r : Row, assoc c r.2) <$> rows_of idx cols = Some <$> vs.
Proof.
  revert cols vs. induction idx as [|i idx IH]; intros cols vs Hc Hlen.
  - by destruct vs.
  - destruct vs as [|v vs]; [done|]. injection Hlen as Hlen.
    cbn [rows_of fmap list_fmap snd]. f_equal.
    + by eapply assoc_heads.
    + apply IH; [|done]. by rewrite assoc_tails, Hc.
Qed.

Lemma heads_mask_true m cols :
  heads (mask_columns (true :: m) cols) = heads cols.
Proof.
  unfold heads, mask_columns.
  induction cols as [|[n vs] cols IH]; [done|].
  cbn [fmap list_fmap omap list_omap fst snd]. rewrite IH. by destruct vs.
Qed.

Lemma tails_mask_true m cols :
  tails (mask_columns (true :: m) cols) = mask_columns m (tails cols).
Proof.
  unfold tails, mask_columns. rewrite <- !list_fmap_compose.
  apply list_fmap_ext. intros _ [n [|v vs]] _; cbn; [|done].
  by rewrite filter_mask_nil_r.
Qed.

Lemma mask_columns_false m cols :
  mask_columns (false :: m) cols = mask_columns m (tails cols).
Proof.
  unfold tails, mask_columns. rewrite <- !list_fmap_compose.
  apply list_fmap_ext. intros _ [n [|v vs]] _; cbn; [|done].
  by rewrite filter_mask_nil_r.
Qed.

(** Masking the columns is masking the rows. *)
Lemma rows_of_filter_mask m idx cols :
  rows_of (filter_mask m idx) (mask_columns m cols)
  = filter_mask m (rows_of idx cols).
Proof.
  revert idx cols. induction m as [|b m IH]; intros idx cols; [done|].
  destruct idx as [|i idx]; [done|].
  destruct b; cbn [filter_mask rows_of].
  - by rewrite heads_mask_true, tails_mask_true, IH.
  - by rewrite mask_columns_false, IH.
Qed.

Lemma assoc_Some_elem {A} c (l : list (string * A)) a :
  assoc c l = Some a → (c, a) ∈ l.
Proof.
  induction l as [|[n b] l IH]; [done|]. cbn [assoc].
  destruct (decide (n = c)) as [->|_].
  - intros [= ->]. by left.
  - intros ?. right. by apply IH.
Qed.

Lemma wf_column_length df c vs :
  wf df → assoc c (df_columns df) = Some vs → length vs = nrows df.
Proof.
  intros [_ Hlen] Hc%assoc_Some_elem.
  by apply (proj1 (Forall_forall _ _) Hlen) in Hc.
Qed.

(** *** Rows by position *)

Lemma table_rows_cons i idx cols :
  table_rows (mkDataFrame (i :: idx) cols)
  = (i, (λ p, (p.1, head p.2)) <$> cols)
      :: table_rows (mkDataFrame idx (tails cols)).
Proof.
  unfold table_rows. cbn [df_index df_columns]. rewrite imap_cons.
  f_equal.
  - f_equal. apply list_fmap_ext. intros _ [n vs] _. cbn [fst snd].
    by destruct vs.
  - apply imap_ext. intros j label _. cbn. f_equal. unfold tails.
    rewrite <- list_fmap_compose. apply list_fmap_ext.
    intros _ [n vs] _. cbn. f_equal. by destruct vs.
Qed.

Lemma first_cells_mask_true m (cols : list (string * list value)) :
  (λ p, (p.1, head p.2)) <$> mask_columns (true :: m) cols
  = (λ p, (p.1, head p.2)) <$> cols.
Proof.
  unfold mask_columns. rewrite <- list_fmap_compose.
  apply list_fmap_ext. intros _ [n vs] _. cbn. by destruct vs.
Qed.

(** Masking the columns is masking the rows. *)
Lemma table_rows_mask m idx cols :
  table_rows (mkDataFrame (filter_mask m idx) (mask_columns m cols))
  = filter_mask m (table_rows (mkDataFrame idx cols)).
Proof.
  revert idx cols. induction m as [|b m IH]; intros idx cols; [done|].
  destruct idx as [|i idx]; [done|].
  rewrite (table_rows_cons i idx cols).
  destruct b; cbn [filter_mask].
  - by rewrite table_rows_cons, first_cells_mask_true, tails_mask_true, IH.
  - by rewrite mask_columns_false, IH.
Qed.

Lemma head_filter_named {A B} (f : A → B) c (l : list (string * A)) :
  head (filter (λ p, p.1 = c) ((λ p, (p.1, f p.2)) <$> l))
  = (λ a, (c, f a)) <$> assoc c l.
Proof.
  induction l as [|[n a] l IH]; [done|].
  rewrite fmap_cons, filter_cons. cbn [fst snd assoc].
  destruct (decide (n = c)) as [->|Hne]; [done | exact IH].
Qed.

(** Reading column [c] row by row gives the column. *)
Lemma number_in_rows c idx cols qs :
  assoc c cols = Some (VNum <$> qs) → length qs = length idx →
  number_in c <$> table_rows (mkDataFrame idx cols) = qs.
Proof.
  revert cols qs. induction idx as [|i idx IH]; intros cols qs Hc Hlen.
  - by destruct qs.
  - destruct qs as [|q qs]; [done|]. injection Hlen as Hlen.
    rewrite table_rows_cons, fmap_cons. f_equal.
    + unfold number_in. cbn [snd].
      by rewrite (head_filter_named head), Hc.
    + apply IH; [|done]. by rewrite assoc_tails, Hc.
Qed.

(** Selecting by a mask computed from aligned scores is filtering the
    rows paired with their scores. *)
Lemma filter_mask_zip {A B} (f : B → bool) (xs : list A) (zs : list B) :
  length zs = length xs →
  filter_mask (f <$> zs) xs
  = (filter (λ p, f p.2 = true) (zip xs zs)).*1.
Proof.
  revert zs. induction xs as [|x xs IH]; intros [|z zs]; try done.
  intros [= Hlen]. cbn [fmap list_fmap filter_mask zip zip_with].
  rewrite filter_cons. cbn [snd].
  destruct (f z); [rewrite decide_True by done | rewrite decide_False by done].
  - rewrite fmap_cons. cbn [fst]. f_equal. by apply IH.
  - by apply IH.
Qed.

(** ** Outlier filter *)

Lemma map_each_to_float qs : map_each to_float (VNum <$> qs) = Ok qs.
Proof.
  induction qs as [|q qs IH]; [done|].
  cbn [fmap list_fmap map_each to_float bind].
  change (list_fmap Q value VNum qs) with (VNum <$> qs).
  by rewrite IH.
Qed.

Lemma mask_rows_Ok df m :
  length m = nrows df →
  mask_rows df m
  = Ok (mkDataFrame (filter_mask m (df_index df))
          (mask_columns m (df_columns df))).
Proof. intros Hlen. unfold mask_rows. by rewrite decide_True. Qed.

Lemma wf_mask df m :
  wf df →
  wf (mkDataFrame (filter_mask m (df_index df))
        (mask_columns m (df_columns df))).
Proof.
  intros [Hnd Hlen]. split.
  - unfold col_names, mask_columns. cbn [df_columns].
    by rewrite names_fmap_snd.
  - unfold nrows, mask_columns. cbn [df_columns df_index].
    apply Forall_fmap. eapply Forall_impl; [exact Hlen|].
    intros [n vs] Hvs. cbn [fst snd] in *. cbn.
    by apply filter_mask_length_eq.
Qed.

Lemma numeric_mask df m c :
  numeric_column df c →
  numeric_column
    (mkDataFrame (filter_mask m (df_index df))
       (mask_columns m (df_columns df))) c.
Proof.
  intros [qs Hc]. exists (filter_mask m qs). cbn [df_columns].
  by rewrite assoc_mask_columns, Hc, <- filter_mask_fmap.
Qed.

Section outlier_results.
Variable lib : FloatLib.

(** The test on one score. *)
Local Abbreviation below3 :=
  (λ z, float_lt lib (np_abs lib z) (float_of lib 3)).

(** One round of the loop, seen on rows. *)
Lemma removeOutliers_body_rows orig df c :
  aligned lib →
  wf df → numeric_column orig c → numeric_column df c →
  ∃ out, removeOutliers_body lib orig df c = Ok out
       ∧ wf out
       ∧ col_names out = col_names df
       ∧ (∀ c', numeric_column df c' → numeric_column out c')
       ∧ table_rows out = spec_outlier_step lib (table_rows df) c.
Proof.
  intros Hal Hwf [os Ho] [qs Hc].
  assert (Hlen : length qs = nrows df).
  { rewrite <- (wf_column_length df c _ Hwf Hc). by rewrite length_fmap. }
  unfold removeOutliers_body, getitem. rewrite Hc, Ho. cbn [bind].
  rewrite !map_each_to_float. cbn [bind].
  rewrite mask_rows_Ok by (by rewrite length_fmap, Hal).
  eexists. split; [reflexivity|].
  split; [by apply wf_mask|]. split.
  { unfold col_names, mask_columns. cbn [df_columns].
    by rewrite names_fmap_snd. }
  split; [intros c'; apply numeric_mask|].
  rewrite table_rows_mask. unfold spec_outlier_step.
  destruct df as [idx cols]. cbn [df_index df_columns] in *.
  rewrite (number_in_rows c idx cols qs Hc Hlen).
  apply (filter_mask_zip below3).
  rewrite Hal, Hlen. unfold table_rows. cbn [df_index].
  by rewrite length_imap.
Qed.

Lemma outlier_loop_rows orig cs df :
  aligned lib →
  wf df → Forall (numeric_column orig) cs → Forall (numeric_column df) cs →
  ∃ out, for_each (removeOutliers_body lib orig) cs df = Ok out
       ∧ wf out
       ∧ col_names out = col_names df
       ∧ table_rows out = foldl (spec_outlier_step lib) (table_rows df) cs.
Proof.
  intros Hal. revert df.
  induction cs as [|c cs IH]; intros df Hwf Horig Hnum.
  - by exists df.
  - apply Forall_cons in Hnum as [Hc Hcs].
    apply Forall_cons in Horig as [Ho Hos].
    destruct (removeOutliers_body_rows orig df c Hal Hwf Ho Hc)
      as (mid & Hrun & Hwf' & Hnames & Hkeep & Hrows).
    destruct (IH mid Hwf' Hos) as (out & Hrun' & Hwf'' & Hnames' & Hrows').
    { eapply Forall_impl; [exact Hcs | exact Hkeep]. }
    exists out. cbn [for_each foldl]. rewrite Hrun. cbn [bind].
    split; [exact Hrun'|]. split; [exact Hwf''|].
    split; [congruence|]. by rewrite Hrows', Hrows.
Qed.

(** C2.  Whatever scores the float library returns, one for each entry:
    on a well-formed table whose columns [savingsRate], [distCrime],
    [amount], [duration], [payments] and [expenses] hold numbers,
    [removeOutliers] succeeds, keeps the columns, and its rows are those
    obtained by going through the six columns in that order, each step
    computing the z-scores of its column over the rows left by the
    previous step and keeping exactly the rows whose score has a
    magnitude below 3. *)
Theorem removeOutliers_sequential (loansDataFrame : DataFrame) :
  (∀ a, length (zscore lib a) = length a) →
  wf loansDataFrame →
  Forall (numeric_column loansDataFrame)
    ["savingsRate"; "distCrime"; "amount"; "duration"; "payments";
     "expenses"]%string →
  ∃ out,
    removeOutliers lib loansDataFrame = Ok out
    ∧ wf out
    ∧ (df_columns out).*1 = (df_columns loansDataFrame).*1
    ∧ table_rows out
      = let s0 := table_rows loansDataFrame in
        let s1 := spec_outlier_step lib s0 "savingsRate" in
        let s2 := spec_outlier_step lib s1 "distCrime" in
        let s3 := spec_outlier_step lib s2 "amount" in
        let s4 := spec_outlier_step lib s3 "duration" in
        let s5 := spec_outlier_step lib s4 "payments" in
        spec_outlier_step lib s5 "expenses".
Proof.
  intros Hal Hwf Hnum.
  destruct (outlier_loop_rows loansDataFrame nonCategoricalColumns
              loansDataFrame Hal Hwf Hnum Hnum)
    as (out & Hrun & Hwf' & Hnames & Hrows).
  exists out. split; [exact Hrun|]. split; [exact Hwf'|].
  split; [exact Hnames | exact Hrows].
Qed.

Lemma mask_columns_all_false m cols :
  Forall (λ b, b = false) m →
  mask_columns m cols = (λ p, (p.1, [])) <$> cols.
Proof.
  intros Hm. unfold mask_columns. apply list_fmap_ext.
  intros _ [n vs] _. cbn [fst snd]. by rewrite filter_mask_all_false.
Qed.

Lemma constant_column_numeric df c :
  constant_column df c → numeric_column df c.
Proof. intros (q & qs & Hc & _). by exists qs. Qed.

Lemma numeric_column_name df c : numeric_column df c → c ∈ col_names df.
Proof. intros [qs Hc]. apply assoc_is_Some. by eexists. Qed.

(** A round on a column without spread leaves no row. *)
Lemma removeOutliers_body_constant orig df c :
  aligned lib → nan_without_spread lib →
  wf df → numeric_column orig c → constant_column df c →
  removeOutliers_body lib orig df c = Ok (without_rows df).
Proof.
  intros Hal Hnan Hwf [os Ho] (q & qs & Hc & Hall).
  assert (Hlen : length qs = nrows df).
  { rewrite <- (wf_column_length df c _ Hwf Hc). by rewrite length_fmap. }
  unfold removeOutliers_body, getitem. rewrite Hc, Ho. cbn [bind].
  rewrite !map_each_to_float. cbn [bind].
  rewrite mask_rows_Ok by (by rewrite length_fmap, Hal).
  assert (Hmask : Forall (λ b, b = false) (below3 <$> zscore lib qs))
    by (apply Forall_fmap, (Hnan qs q Hall)).
  unfold without_rows.
  by rewrite (filter_mask_all_false _ _ Hmask),
    (mask_columns_all_false _ _ Hmask).
Qed.

(** A round on a table without rows changes nothing. *)
Lemma removeOutliers_body_without_rows orig df c :
  aligned lib → numeric_column orig c → c ∈ col_names df →
  removeOutliers_body lib orig (without_rows df) c = Ok (without_rows df).
Proof.
  intros Hal [os Ho] [vs Hc]%assoc_is_Some.
  unfold removeOutliers_body, getitem, without_rows. cbn [df_columns].
  rewrite (assoc_fmap_snd (λ _ : list value, @nil value)), Hc, Ho.
  cbn [fmap option_fmap option_map bind].
  rewrite map_each_to_float. cbn [bind map_each].
  pose proof (Hal []) as Hnil. apply nil_length_inv in Hnil.
  rewrite Hnil, mask_rows_Ok by done.
  cbn [df_index df_columns filter_mask fmap list_fmap].
  f_equal. f_equal. unfold mask_columns. rewrite <- list_fmap_compose.
  by apply list_fmap_ext.
Qed.

Lemma outlier_loop_without_rows orig cs df :
  aligned lib →
  Forall (numeric_column orig) cs → Forall (λ c, c ∈ col_names df) cs →
  for_each (removeOutliers_body lib orig) cs (without_rows df)
  = Ok (without_rows df).
Proof.
  intros Hal Horig.
  induction 1 as [|c cs Hc _ IH]; [done|].
  apply Forall_cons in Horig as [Ho Hos].
  cbn [for_each]. rewrite removeOutliers_body_without_rows by done.
  cbn [bind]. by apply IH.
Qed.

(** C3, as the code has it.  With a float library that returns one
    score for each entry and, as scipy does, scores that are not
    numbers for a sample without spread: on a well-formed table whose
    columns [savingsRate], [distCrime], [amount], [duration],
    [payments] and [expenses] are all constant, [removeOutliers]
    returns the table with the same columns and no rows, since no
    score compares below 3. *)
Theorem removeOutliers_constant_columns (loansDataFrame : DataFrame) :
  (∀ a, length (zscore lib a) = length a) →
  (∀ a q, Forall (λ x, (x == q)%Q) a →
          Forall (λ z, float_lt lib (np_abs lib z) (float_of lib 3) = false)
            (zscore lib a)) →
  wf loansDataFrame →
  Forall (constant_column loansDataFrame)
    ["savingsRate"; "distCrime"; "amount"; "duration"; "payments";
     "expenses"]%string →
  removeOutliers lib loansDataFrame
  = Ok (mkDataFrame [] ((λ p, (p.1, [])) <$> df_columns loansDataFrame)).
Proof.
  intros Hal Hnan Hwf Hconst.
  assert (Hnum : Forall (numeric_column loansDataFrame) nonCategoricalColumns).
  { eapply Forall_impl; [exact Hconst|]. apply constant_column_numeric. }
  unfold removeOutliers, nonCategoricalColumns in *.
  apply Forall_cons in Hconst as [Hfirst _].
  pose proof Hnum as Hnum'. apply Forall_cons in Hnum' as [Hn1 Hrest].
  rewrite for_each_cons,
    (removeOutliers_body_constant _ _ _ Hal Hnan Hwf Hn1 Hfirst).
  cbn [bind]. apply outlier_loop_without_rows; [done..|].
  eapply Forall_impl; [exact Hrest|]. apply numeric_column_name.
Qed.
End outlier_results.

(** *** The stand-in library *)

Lemma exact_aligned a : length (exact_zscore a) = length a.
Proof. unfold exact_zscore. by rewrite length_fmap. Qed.

Lemma inject_nat_nonzero n : n ≠ 0%nat → ¬ (inject_Z (Z.of_nat n) == 0)%Q.
Proof. intros Hn. unfold Qeq. cbn. lia. Qed.

Lemma Qsum_constant q qs :
  Forall (λ x, (x == q)%Q) qs →
  (Qsum qs == inject_Z (Z.of_nat (length qs)) * q)%Q.
Proof.
  induction 1 as [|x qs Hx _ IH].
  - cbn. ring.
  - cbn [Qsum foldr length]. change (foldr Qplus 0%Q qs) with (Qsum qs).
    rewrite IH, Hx, Nat2Z.inj_succ, <- Z.add_1_r, inject_Z_plus.
    change (inject_Z 1) with 1%Q. ring.
Qed.

Lemma exact_mean_constant q qs :
  qs ≠ [] → Forall (λ x, (x == q)%Q) qs → (exact_mean qs == q)%Q.
Proof.
  intros Hne Hall. unfold exact_mean. rewrite (Qsum_constant q qs Hall).
  field. apply inject_nat_nonzero. by destruct qs.
Qed.

Lemma Qsum_zero qs : Forall (λ x, (x == 0)%Q) qs → (Qsum qs == 0)%Q.
Proof.
  intros Hall. rewrite (Qsum_constant 0 qs Hall). ring.
Qed.

(** The variance of a constant sample is zero. *)
Lemma exact_variance_constant q qs :
  Forall (λ x, (x == q)%Q) qs → (exact_variance qs == 0)%Q.
Proof.
  intros Hall. destruct (decide (qs = [])) as [->|Hne]; [done|].
  unfold exact_variance. cbv zeta.
  set (devs := (λ x, (x - exact_mean qs) * (x - exact_mean qs))%Q <$> qs).
  assert (Hdevs : Forall (λ x, (x == 0)%Q) devs).
  { apply Forall_fmap. eapply Forall_impl; [exact Hall|].
    intros x Hx. cbn. rewrite Hx, (exact_mean_constant q qs Hne Hall). ring. }
  unfold exact_mean. rewrite (Qsum_zero devs Hdevs).
  unfold Qdiv. ring.
Qed.

Lemma exact_nan_without_spread a q :
  Forall (λ x, (x == q)%Q) a →
  Forall (λ z, exact_lt (exact_abs z) (ERatio 3 1) = false) (exact_zscore a).
Proof.
  intros Hall. unfold exact_zscore. apply Forall_fmap, Forall_forall.
  intros x _. cbn.
  by rewrite (proj2 (Qeq_bool_iff _ _) (exact_variance_constant q a Hall)).
Qed.

Lemma removeOutliers_sequential_witness :
  ∃ out,
    removeOutliers exact_lib sample_features = Ok out
    ∧ wf out
    ∧ (df_columns out).*1 = (df_columns sample_features).*1
    ∧ table_rows out
      = let s0 := table_rows sample_features in
        let s1 := spec_outlier_step exact_lib s0 "savingsRate" in
        let s2 := spec_outlier_step exact_lib s1 "distCrime" in
        let s3 := spec_outlier_step exact_lib s2 "amount" in
        let s4 := spec_outlier_step exact_lib s3 "duration" in
        let s5 := spec_outlier_step exact_lib s4 "payments" in
        spec_outlier_step exact_lib s5 "expenses".
Proof.
  apply (removeOutliers_sequential exact_lib sample_features).
  - exact exact_aligned.
  - split; [by apply (bool_decide_unpack _) | by repeat constructor].
  - repeat apply Forall_cons_2; [..|apply Forall_nil_2];
      unfold numeric_column, sample_features, num_col;
      cbn [df_columns assoc]; by eexists.
Defined.

(** Loan 0 goes at [amount], loan 1 at [duration]. *)
Example removeOutliers_sample :
  removeOutliers exact_lib sample_features = Ok sample_survivors.
Proof. vm_compute. reflexivity. Qed.

(** Scored against the whole table, loan 1 is no outlier in [duration]:
    filtering each column on its own would have kept it. *)
Example duration_alone_keeps_loan_1 :
  (let* out :=
     removeOutliers_body exact_lib sample_features sample_features
       "duration" in
   Ok (df_index out))
  = Ok [1; 2; 3; 4; 5; 6; 7; 8; 9; 10; 11].
Proof. vm_compute. reflexivity. Qed.

Example removeOutliers_missing_column :
  removeOutliers exact_lib sample_amounts = Raise KeyError.
Proof. vm_compute. reflexivity. Qed.

(** The text cell belongs to loan 0, which the [amount] step removes;
    the [duration] column keeps its dtype and its step raises. *)
Example removeOutliers_text_in_removed_row :
  removeOutliers exact_lib sample_text_duration = Raise TypeError.
Proof. vm_compute. reflexivity. Qed.

Lemma removeOutliers_constant_columns_witness :
  removeOutliers exact_lib sample_constant
  = Ok (mkDataFrame []
          ((λ p, (p.1, [])) <$> df_columns sample_constant)).
Proof.
  apply (removeOutliers_constant_columns exact_lib sample_constant).
  - exact exact_aligned.
  - exact exact_nan_without_spread.
  - split; [by apply (bool_decide_unpack _) | by repeat constructor].
  - repeat apply Forall_cons_2; [..|apply Forall_nil_2];
      unfold constant_column, sample_constant, num_col;
      cbn [df_columns assoc]; eexists _, _; (split; [reflexivity|]);
      by repeat constructor.
Defined.

(** The three loans of [sample_constant]: none is left. *)
Example removeOutliers_constant_sample :
  removeOutliers exact_lib sample_constant
  = Ok (mkDataFrame []
          [("savingsRate"%string, []); ("distCrime"%string, []);
           ("amount"%string, []); ("duration"%string, []);
           ("payments"%string, []); ("expenses"%string, [])]).
Proof. vm_compute. reflexivity. Qed.

(** ** The order on cell values *)

Lemma string_compare_refl s : String.compare s s = Eq.
Proof.
  induction s as [|a s IH]; [done|]. cbn [String.compare].
  unfold Ascii.compare. by rewrite N.compare_refl.
Qed.

Lemma string_compare_trans s1 s2 s3 :
  String.compare s1 s2 = Lt → String.compare s2 s3 = Lt →
  String.compare s1 s3 = Lt.
Proof.
  revert s2 s3. induction s1 as [|a1 s1 IH]; intros [|a2 s2] [|a3 s3];
    cbn [String.compare]; try done.
  unfold Ascii.compare.
  destruct (N.compare_spec (Ascii.N_of_ascii a1) (Ascii.N_of_ascii a2))
    as [H12|H12|H12]; [| |done];
    (destruct (N.compare_spec (Ascii.N_of_ascii a2) (Ascii.N_of_ascii a3))
      as [H23|H23|H23]; [| |done]); intros Hs12 Hs23.
  - rewrite H12, H23, N.compare_refl. by eapply IH.
  - rewrite H12. by rewrite (proj2 (N.compare_lt_iff _ _) H23).
  - rewrite <- H23. by rewrite (proj2 (N.compare_lt_iff _ _) H12).
  - by rewrite (proj2 (N.compare_lt_iff _ _) (N.lt_trans _ _ _ H12 H23)).
Qed.

Lemma value_compare_refl v : value_compare v v = Eq.
Proof.
  destruct v as [q|s]; cbn.
  - by apply Qeq_alt.
  - apply string_compare_refl.
Qed.

Lemma value_compare_antisym a b :
  value_compare b a = CompOpp (value_compare a b).
Proof.
  destruct a as [p|s], b as [q|t]; cbn; try done.
  - symmetry. apply Qcompare_antisym.
  - apply String.compare_antisym.
Qed.

Lemma value_lt_trans a b c : value_lt a b → value_lt b c → value_lt a c.
Proof.
  unfold value_lt. destruct a as [p|s], b as [q|t], c as [r|u]; cbn;
    try done.
  - rewrite <- !Qlt_alt. apply Qlt_trans.
  - apply string_compare_trans.
Qed.

(** Values the order holds equal compare alike with everything. *)
Lemma value_compare_eq_l a b c :
  value_compare a b = Eq → value_compare a c = value_compare b c.
Proof.
  destruct a as [p|s], b as [q|t], c as [r|u]; cbn; try done.
  - intros Hpq%Qeq_alt. by rewrite Hpq.
  - by intros ->%String.compare_eq_iff.
Qed.

Lemma value_compare_eq_sym a b :
  value_compare a b = Eq → value_compare b a = Eq.
Proof. intros H. by rewrite value_compare_antisym, H. Qed.

Lemma value_compare_eq_r a b c :
  value_compare b c = Eq → value_compare a b = value_compare a c.
Proof.
  intros H. rewrite (value_compare_antisym b a), (value_compare_antisym c a).
  f_equal. by apply value_compare_eq_l.
Qed.

Lemma value_lt_irrefl a : ¬ value_lt a a.
Proof. unfold value_lt. by rewrite value_compare_refl. Qed.

Lemma value_compare_Gt a b : value_compare a b = Gt ↔ value_lt b a.
Proof.
  unfold value_lt. rewrite (value_compare_antisym a b).
  by destruct (value_compare a b).
Qed.

(** ** Label encoder *)

Lemma insert_class_Forall (P : value → Prop) x cs :
  P x → Forall P cs → Forall P (insert_class x cs).
Proof.
  intros Hx. induction 1 as [|c cs Hc Hcs IH]; cbn [insert_class].
  - by repeat constructor.
  - destruct (value_compare x c); repeat constructor; done.
Qed.

Lemma insert_class_sorted x cs :
  StronglySorted value_lt cs → StronglySorted value_lt (insert_class x cs).
Proof.
  induction 1 as [|c cs Hsorted IH Hc]; cbn [insert_class].
  - by repeat constructor.
  - destruct (value_compare x c) eqn:Hxc.
    + by constructor.
    + constructor; [by constructor|]. constructor; [done|].
      eapply Forall_impl; [exact Hc|]. intros d. by apply value_lt_trans.
    + constructor; [done|].
      apply insert_class_Forall; [by apply value_compare_Gt | done].
Qed.

Lemma insert_class_elem x cs c : c ∈ insert_class x cs → c = x ∨ c ∈ cs.
Proof.
  induction cs as [|d cs IH]; cbn [insert_class].
  - intros ->%list_elem_of_singleton. by left.
  - destruct (value_compare x d).
    + by right.
    + intros [->|?]%elem_of_cons; [by left | by right].
    + intros [->|[->|?]%IH]%elem_of_cons.
      * right. by left.
      * by left.
      * right. by right.
Qed.

Lemma insert_class_keeps x cs c : c ∈ cs → c ∈ insert_class x cs.
Proof.
  induction cs as [|d cs IH]; cbn [insert_class]; [by intros ?%not_elem_of_nil|].
  destruct (value_compare x d); [done | by right |].
  intros [->|?]%elem_of_cons; [by left | right; by apply IH].
Qed.

Lemma insert_class_has x cs :
  ∃ c, c ∈ insert_class x cs ∧ value_compare x c = Eq.
Proof.
  induction cs as [|d cs (c & Hc & Hxc)]; cbn [insert_class].
  - exists x. split; [by left | apply value_compare_refl].
  - destruct (value_compare x d) eqn:Hxd.
    + exists d. split; [by left | done].
    + exists x. split; [by left | apply value_compare_refl].
    + exists c. split; [by right | done].
Qed.

Lemma classes_of_sorted y : StronglySorted value_lt (classes_of y).
Proof.
  induction y as [|v y IH]; [constructor|]. by apply insert_class_sorted.
Qed.

Lemma classes_of_observed y c : c ∈ classes_of y → c ∈ y.
Proof.
  induction y as [|v y IH]; [done|]. cbn [classes_of foldr].
  intros [->|?]%insert_class_elem; [by left | right; by apply IH].
Qed.

Lemma classes_of_has y v :
  v ∈ y → ∃ c, c ∈ classes_of y ∧ value_compare v c = Eq.
Proof.
  induction y as [|w y IH]; [by intros ?%not_elem_of_nil|].
  cbn [classes_of foldr]. intros [->|(c & Hc & Hvc)%IH]%elem_of_cons.
  - apply insert_class_has.
  - exists c. split; [by apply insert_class_keeps | done].
Qed.

(** In an ascending list the search stops at the entry equal to [v]. *)
Lemma index_of_sorted cs v c :
  StronglySorted value_lt cs → c ∈ cs → value_compare v c = Eq →
  cs !! index_of v cs = Some c.
Proof.
  induction 1 as [|d cs Hsorted IH Hd]; [by intros ?%not_elem_of_nil|].
  intros Hin Hvc. cbn [index_of].
  destruct (value_compare v d) eqn:Hvd.
  - apply elem_of_cons in Hin as [->|Hin]; [done|].
    apply (proj1 (Forall_forall _ _) Hd) in Hin. unfold value_lt in Hin.
    rewrite (value_compare_eq_l d v c (value_compare_eq_sym _ _ Hvd)) in Hin.
    congruence.
  - apply elem_of_cons in Hin as [->|Hin]; [congruence|]. by apply IH.
  - apply elem_of_cons in Hin as [->|Hin]; [congruence|]. by apply IH.
Qed.

Lemma code_of_ascending y : ascending_codes y (code_of y).
Proof.
  exists (classes_of y). split; [apply classes_of_sorted|].
  split; [apply classes_of_observed|].
  intros v (c & Hc & Hvc)%classes_of_has.
  exists (index_of v (classes_of y)), c. split; [done|].
  split; [|done]. apply index_of_sorted; [apply classes_of_sorted|done..].
Qed.

Lemma sorted_lookup_lt cs i j a b :
  StronglySorted value_lt cs → (i < j)%nat →
  cs !! i = Some a → cs !! j = Some b → value_lt a b.
Proof.
  intros Hsorted. revert i j.
  induction Hsorted as [|c cs _ IH Hc]; intros i j Hij; [done|].
  destruct j as [|j]; [lia|]. destruct i as [|i]; cbn.
  - intros [= ->] Hb. apply (proj1 (Forall_forall _ _) Hc).
    by eapply list_elem_of_lookup_2.
  - apply IH. lia.
Qed.

(** Codes follow the order of the values. *)
Lemma ascending_codes_monotone y code u v :
  ascending_codes y code → u ∈ y → v ∈ y →
  value_lt u v → code u < code v.
Proof.
  intros (classes & Hsorted & _ & Hcode) Hu Hv Huv.
  destruct (Hcode u Hu) as (i & a & -> & Hi & Hua).
  destruct (Hcode v Hv) as (j & b & -> & Hj & Hvb).
  assert (Hab : value_lt a b).
  { unfold value_lt in *.
    by rewrite <- (value_compare_eq_l u a b Hua),
      <- (value_compare_eq_r u v b Hvb). }
  destruct (Nat.lt_trichotomy i j) as [?|[->|Hji]]; [lia|..].
  - rewrite Hi in Hj. injection Hj as ->. by apply value_lt_irrefl in Hab.
  - pose proof (sorted_lookup_lt _ _ _ _ _ Hsorted Hji Hj Hi) as Hba.
    destruct (value_lt_irrefl a). by eapply value_lt_trans.
Qed.

(** Equal values get equal codes. *)
Lemma code_of_eq y u v :
  value_compare u v = Eq → code_of y u = code_of y v.
Proof.
  intros Huv. unfold code_of. f_equal.
  induction (classes_of y) as [|c cs IH]; [done|]. cbn [index_of].
  by rewrite (value_compare_eq_l u v c Huv), IH.
Qed.

(** The lowest observed value gets code 0. *)
Lemma ascending_codes_lowest y code v :
  ascending_codes y code → v ∈ y → (∀ u, u ∈ y → ¬ value_lt u v) →
  code v = 0.
Proof.
  intros (classes & Hsorted & Hobs & Hcode) Hv Hlow.
  destruct (Hcode v Hv) as (i & c & -> & Hi & Hvc).
  destruct i as [|i]; [done|].
  destruct classes as [|c0 classes]; [done|].
  destruct (Hlow c0); [apply Hobs; by left|].
  unfold value_lt. rewrite (value_compare_eq_r c0 v c Hvc).
  apply (sorted_lookup_lt (c0 :: classes) 0 (S i)); [done|lia|done..].
Qed.

Lemma fit_transform_Ok y :
  uniform y = true →
  fit_transform y = Ok ((λ v, VNum (inject_Z (code_of y v))) <$> y).
Proof. intros Hy. unfold fit_transform. by rewrite Hy. Qed.

Example fit_transform_genders :
  fit_transform [VStr "M"; VStr "F"; VStr "M"] = Ok [VNum 1; VNum 0; VNum 1].
Proof. reflexivity. Qed.

Example fit_transform_numbers :
  fit_transform [VNum 30; VNum (60 # 2); VNum 20; VNum 45]
  = Ok [VNum 1; VNum 1; VNum 0; VNum 2].
Proof. reflexivity. Qed.

Example fit_transform_mixed :
  fit_transform [VStr "M"; VNum 1] = Raise TypeError.
Proof. reflexivity. Qed.

(** ** Data frames: reading after an update *)

Lemma getitem_Ok df c vs :
  getitem df c = Ok vs ↔ assoc c (df_columns df) = Some vs.
Proof.
  unfold getitem. destruct (assoc c (df_columns df)); split; congruence.
Qed.

Lemma getitem_Raise df c :
  getitem df c = Raise KeyError ↔ c ∉ col_names df.
Proof.
  unfold getitem, col_names. rewrite <- assoc_None.
  destruct (assoc c (df_columns df)); split; congruence.
Qed.

Lemma getitem_is_Ok df c :
  (∃ vs, getitem df c = Ok vs) ↔ c ∈ col_names df.
Proof.
  unfold col_names. rewrite <- assoc_is_Some. unfold is_Some.
  by setoid_rewrite getitem_Ok.
Qed.

Lemma assoc_replace {A} c c' (a : A) (l : list (string * A)) :
  assoc c' ((λ p, if decide (p.1 = c) then (c, a) else p) <$> l)
  = if decide (c' = c) then (λ _, a) <$> assoc c l else assoc c' l.
Proof.
  induction l as [|[n b] l IH]; [by destruct (decide (c' = c))|].
  cbn [fmap list_fmap fst]. change (list_fmap _ _ ?f l) with (f <$> l).
  destruct (decide (n = c)) as [->|Hnc]; cbn [assoc].
  - destruct (decide (c = c')) as [<-|Hcc'].
    + by rewrite !decide_True.
    + rewrite IH. by rewrite !decide_False.
  - destruct (decide (n = c')) as [->|Hnc'].
    + by rewrite decide_False.
    + rewrite IH. destruct (decide (c' = c)); [|done].
      by rewrite decide_False.
Qed.

Lemma assoc_snoc {A} c c' (a : A) (l : list (string * A)) :
  assoc c' (l ++ [(c, a)])
  = match assoc c' l with
    | Some b => Some b
    | None => if decide (c' = c) then Some a else None
    end.
Proof.
  induction l as [|[n b] l IH]; cbn [app assoc].
  - destruct (decide (c = c')) as [->|?].
    + by rewrite decide_True.
    + by rewrite decide_False.
  - by destruct (decide (n = c')).
Qed.

Lemma drop_spec df c vs :
  getitem df c = Ok vs →
  ∃ df', drop df c = Ok df'
       ∧ df_index df' = df_index df
       ∧ ∀ c', getitem df' c'
               = if decide (c' = c) then Raise KeyError else getitem df c'.
Proof.
  intros Hc. rewrite drop_Ok by (apply getitem_is_Ok; by eexists).
  eexists. split; [done|]. split; [done|].
  intros c'. unfold getitem. cbn [df_columns]. rewrite assoc_drop.
  by destruct (decide (c' = c)).
Qed.

Lemma setitem_spec df c vs :
  length vs = nrows df →
  ∃ df', setitem df c vs = Ok df'
       ∧ df_index df' = df_index df
       ∧ ∀ c', getitem df' c'
               = if decide (c' = c) then Ok vs else getitem df c'.
Proof.
  intros Hlen. unfold setitem. rewrite decide_True by done.
  destruct (decide (c ∈ col_names df)) as [Hin|Hnin].
  - eexists. split; [done|]. split; [done|].
    intros c'. unfold getitem. cbn [df_columns]. rewrite assoc_replace.
    destruct (decide (c' = c)) as [->|?]; [|done].
    apply assoc_is_Some in Hin as [ws ->]. done.
  - eexists. split; [done|]. split; [done|].
    intros c'. unfold getitem. cbn [df_columns]. rewrite assoc_snoc.
    apply assoc_None in Hnin.
    destruct (decide (c' = c)) as [->|?]; [by rewrite Hnin|].
    by destruct (assoc c' (df_columns df)).
Qed.

(** ** Encoder *)

Section encoder_props.
Variables (py_str : value → string)
          (convertFullDate : string → result Date).

Local Abbreviation parse := (λ v, convertFullDate (py_str v)).

(** The loop over the rows parses the [date] column top to bottom. *)
Lemma split_date_loop rows dates ds acc :
  (λ r : Row, assoc "date" r.2) <$> rows = Some <$> dates →
  map_each parse dates = Ok ds →
  for_each (split_date_body py_str convertFullDate) rows acc
  = Ok (acc.1.1 ++ (year <$> ds), acc.1.2 ++ (month <$> ds),
        acc.2 ++ (day <$> ds)).
Proof.
  revert dates ds acc.
  induction rows as [|row rows IH]; intros dates ds [[ys ms] dys].
  - destruct dates; [|done]. intros _ [= <-]. cbn.
    by rewrite !app_nil_r.
  - destruct dates as [|v dates]; [done|].
    rewrite !fmap_cons. intros [= Hrow Hrows]. cbn [map_each].
    destruct (convertFullDate (py_str v)) as [d|] eqn:Hd; [|done].
    cbn [bind].
    destruct (map_each parse dates) as [ds'|] eqn:Hds; [|done].
    cbn [bind]. intros [= <-].
    rewrite for_each_cons. unfold split_date_body at 1, row_get.
    rewrite Hrow. cbn [bind]. rewrite Hd. cbn [bind].
    rewrite (IH dates ds' _ Hrows Hds). cbn [fst snd].
    by rewrite !fmap_cons, <- !app_assoc.
Qed.

(** C9.  On a well-formed table with [gender], [ageGroup] and [date]
    columns, each of the first two uniformly strings or numbers and
    every date parsing, [labelEncoding] succeeds and keeps the rows;
    [gender] and [ageGroup] hold the code of each value, the codes
    numbering the distinct observed values in ascending order from 0;
    [month] and [day] hold the parsed month and day; there is no [date]
    column any more, every other column is as before, and in
    particular no [year] column appears. *)
Theorem labelEncoding_encodes
    (loansDataFrame : DataFrame) (gender ageGroup dates : list value)
    (parsed : list Date) :
  wf loansDataFrame →
  getitem loansDataFrame "gender" = Ok gender →
  getitem loansDataFrame "ageGroup" = Ok ageGroup →
  getitem loansDataFrame "date" = Ok dates →
  uniform gender = true →
  uniform ageGroup = true →
  map_each parse dates = Ok parsed →
  ∃ out,
    labelEncoding py_str convertFullDate loansDataFrame = Ok out
    ∧ df_index out = df_index loansDataFrame
    ∧ getitem out "gender"
      = Ok ((λ v, VNum (inject_Z (code_of gender v))) <$> gender)
    ∧ ascending_codes gender (code_of gender)
    ∧ getitem out "ageGroup"
      = Ok ((λ v, VNum (inject_Z (code_of ageGroup v))) <$> ageGroup)
    ∧ ascending_codes ageGroup (code_of ageGroup)
    ∧ getitem out "month"
      = Ok ((λ d, VNum (inject_Z (month d))) <$> parsed)
    ∧ getitem out "day"
      = Ok ((λ d, VNum (inject_Z (day d))) <$> parsed)
    ∧ ("date"%string ∉ col_names out)
    ∧ (∀ c, c ∉ ["gender"; "ageGroup"; "date"; "month"; "day"]%string →
            getitem out c = getitem loansDataFrame c)
    ∧ ("year"%string ∉ col_names loansDataFrame →
       "year"%string ∉ col_names out).
Proof.
  intros Hwf Hgender Hage Hdate Hug Hua Hparse.
  assert (Hlg : length gender = nrows loansDataFrame)
    by (eapply wf_column_length; [done | by apply getitem_Ok]).
  assert (Hla : length ageGroup = nrows loansDataFrame)
    by (eapply wf_column_length; [done | by apply getitem_Ok]).
  assert (Hld : length dates = nrows loansDataFrame)
    by (eapply wf_column_length; [done | by apply getitem_Ok]).
  assert (Hlp : length parsed = length dates).
  { clear -Hparse. revert parsed Hparse.
    induction dates as [|v dates' IH]; intros parsed; cbn [map_each].
    - by intros [= <-].
    - destruct (convertFullDate (py_str v)); [|done]. cbn [bind].
      destruct (map_each parse dates') as [ds'|]; [|done].
      cbn [bind]. intros [= <-]. cbn. f_equal. by apply IH. }
  unfold labelEncoding.
  rewrite Hgender. cbn [bind]. rewrite (fit_transform_Ok _ Hug).
  cbn [bind]. rewrite Hage. cbn [bind].
  rewrite (fit_transform_Ok _ Hua). cbn [bind].
  destruct (drop_spec _ _ _ Hgender) as (e1 & -> & Hi1 & Hg1).
  cbn [bind].
  assert (Hage1 : getitem e1 "ageGroup" = Ok ageGroup)
    by (by rewrite Hg1, decide_False).
  destruct (drop_spec _ _ _ Hage1) as (e2 & -> & Hi2 & Hg2).
  cbn [bind].
  destruct (setitem_spec e2 "gender"
              ((λ v, VNum (inject_Z (code_of gender v))) <$> gender))
    as (e3 & -> & Hi3 & Hg3).
  { rewrite length_fmap. unfold nrows in *. congruence. }
  cbn [bind].
  destruct (setitem_spec e3 "ageGroup"
              ((λ v, VNum (inject_Z (code_of ageGroup v))) <$> ageGroup))
    as (e4 & -> & Hi4 & Hg4).
  { rewrite length_fmap. unfold nrows in *. congruence. }
  cbn [bind].
  assert (Hdate4 : getitem e4 "date" = Ok dates).
  { rewrite Hg4, decide_False, Hg3, decide_False, Hg2, decide_False,
      Hg1, decide_False by done. done. }
  unfold iterrows.
  rewrite (split_date_loop _ dates parsed ([], [], [])); [|
    apply rows_of_column; [by apply getitem_Ok |];
    unfold nrows in *; congruence | done].
  cbn [bind fst snd app].
  destruct (drop_spec _ _ _ Hdate4) as (e5 & -> & Hi5 & Hg5).
  cbn [bind].
  destruct (setitem_spec e5 "month" (int_column (month <$> parsed)))
    as (e6 & -> & Hi6 & Hg6).
  { unfold int_column. rewrite !length_fmap. unfold nrows in *.
    congruence. }
  cbn [bind].
  destruct (setitem_spec e6 "day" (int_column (day <$> parsed)))
    as (out & -> & Hi7 & Hg7).
  { unfold int_column. rewrite !length_fmap. unfold nrows in *.
    congruence. }
  exists out. split; [done|].
  split; [congruence|].
  split.
  { rewrite Hg7, decide_False, Hg6, decide_False, Hg5, decide_False, Hg4,
      decide_False, Hg3, decide_True by done. done. }
  split; [apply code_of_ascending|].
  split.
  { rewrite Hg7, decide_False, Hg6, decide_False, Hg5, decide_False, Hg4,
      decide_True by done. done. }
  split; [apply code_of_ascending|].
  split.
  { rewrite Hg7, decide_False, Hg6, decide_True by done.
    unfold int_column. by rewrite <- list_fmap_compose. }
  split.
  { rewrite Hg7, decide_True by done.
    unfold int_column. by rewrite <- list_fmap_compose. }
  split.
  { apply getitem_Raise.
    rewrite Hg7, decide_False, Hg6, decide_False, Hg5, decide_True
      by done. done. }
  assert (Hother : ∀ c,
    c ∉ ["gender"; "ageGroup"; "date"; "month"; "day"]%string →
    getitem out c = getitem loansDataFrame c).
  { intros c Hc. rewrite !not_elem_of_cons in Hc.
    destruct Hc as (? & ? & ? & ? & ? & _).
    rewrite Hg7, decide_False, Hg6, decide_False, Hg5, decide_False, Hg4,
      decide_False, Hg3, decide_False, Hg2, decide_False, Hg1,
      decide_False by done. done. }
  split; [exact Hother|].
  rewrite <- !getitem_Raise. intros Hyear. rewrite Hother; [done|].
  rewrite !not_elem_of_cons. split_and!; try done. apply not_elem_of_nil.
Qed.
End encoder_props.

Example labelEncoding_sample :
  labelEncoding sample_str sample_convertFullDate sample_combined
  = Ok sample_encoded.
Proof. vm_compute. reflexivity. Qed.

Example convertFullDate_sample :
  sample_convertFullDate "1997-05-12" = Ok (mkDate 1997 5 12).
Proof. reflexivity. Qed.

Lemma labelEncoding_encodes_witness :
  ∃ out,
    labelEncoding sample_str sample_convertFullDate sample_combined = Ok out
    ∧ df_index out = df_index sample_combined
    ∧ getitem out "gender"
      = Ok ((λ v, VNum (inject_Z (code_of (VStr <$> ["M"; "F"; "M"]%string) v)))
              <$> (VStr <$> ["M"; "F"; "M"]%string))
    ∧ ascending_codes (VStr <$> ["M"; "F"; "M"]%string)
        (code_of (VStr <$> ["M"; "F"; "M"]%string))
    ∧ getitem out "ageGroup"
      = Ok ((λ v, VNum (inject_Z
                     (code_of (VStr <$> ["senior"; "adult"; "young"]%string) v)))
              <$> (VStr <$> ["senior"; "adult"; "young"]%string))
    ∧ ascending_codes (VStr <$> ["senior"; "adult"; "young"]%string)
        (code_of (VStr <$> ["senior"; "adult"; "young"]%string))
    ∧ getitem out "month"
      = Ok ((λ d, VNum (inject_Z (month d)))
              <$> [mkDate 1997 5 12; mkDate 1993 7 5; mkDate 1996 11 30])
    ∧ getitem out "day"
      = Ok ((λ d, VNum (inject_Z (day d)))
              <$> [mkDate 1997 5 12; mkDate 1993 7 5; mkDate 1996 11 30])
    ∧ ("date"%string ∉ col_names out)
    ∧ (∀ c, c ∉ ["gender"; "ageGroup"; "date"; "month"; "day"]%string →
            getitem out c = getitem sample_combined c)
    ∧ ("year"%string ∉ col_names sample_combined →
       "year"%string ∉ col_names out).
Proof.
  apply (labelEncoding_encodes sample_str sample_convertFullDate
           sample_combined
           (VStr <$> ["M"; "F"; "M"]%string)
           (VStr <$> ["senior"; "adult"; "young"]%string)
           (VStr <$> ["1997-05-12"; "1993-07-05"; "1996-11-30"]%string)
           [mkDate 1997 5 12; mkDate 1993 7 5; mkDate 1996 11 30]).
  - split; [by apply (bool_decide_unpack _) | by repeat constructor].
  - reflexivity.
  - reflexivity.
  - reflexivity.
  - reflexivity.
  - reflexivity.
  - reflexivity.
Defined.

(** ** Validator *)

Lemma value_eqb_refl v : value_eqb v v = true.
Proof. unfold value_eqb. by rewrite value_compare_refl. Qed.

Lemma value_eqb_eq a b : value_eqb a b = true ↔ value_compare a b = Eq.
Proof. unfold value_eqb. by destruct (value_compare a b). Qed.

Lemma value_eqb_sym a b : value_eqb a b = value_eqb b a.
Proof.
  unfold value_eqb. rewrite (value_compare_antisym a b).
  by destruct (value_compare a b).
Qed.

Lemma value_eqb_l a b c :
  value_eqb a b = true → value_eqb a c = value_eqb b c.
Proof.
  intros H%value_eqb_eq. unfold value_eqb.
  by rewrite (value_compare_eq_l a b c H).
Qed.

Lemma existsb_eqb_elem x l :
  existsb (value_eqb x) l = true ↔ ∃ c, c ∈ l ∧ value_compare x c = Eq.
Proof.
  rewrite existsb_exists. setoid_rewrite value_eqb_eq.
  by setoid_rewrite list_elem_of_In.
Qed.

(** A row is flagged exactly when an earlier row has an equal key. *)
Lemma duplicated_from_lookup seen keys i :
  duplicated_from seen keys !! i = Some true
  ↔ ∃ k, keys !! i = Some k
         ∧ ((∃ s, s ∈ seen ∧ value_compare k s = Eq)
            ∨ ∃ j k', (j < i)%nat ∧ keys !! j = Some k'
                      ∧ value_compare k k' = Eq).
Proof.
  revert seen i. induction keys as [|k0 keys IH]; intros seen i.
  - cbn. split; [done | by intros (k & ? & _)].
  - destruct i as [|i]; cbn [duplicated_from lookup list_lookup].
    + split.
      * intros [= H]. exists k0. split; [done|]. left.
        by apply existsb_eqb_elem.
      * intros (k & [= <-] & [H|(j & _ & ? & _)]); [|lia].
        f_equal. by apply existsb_eqb_elem.
    + rewrite IH. split.
      * intros (k & Hk & [(s & Hs & Hks)|(j & k' & Hj & Hk' & Hkk')]);
          exists k; (split; [done|]).
        -- apply elem_of_cons in Hs as [->|Hs].
           ++ right. exists 0%nat, k0. split; [lia | done].
           ++ left. by exists s.
        -- right. exists (S j), k'. split; [lia | done].
      * intros (k & Hk & [(s & Hs & Hks)|(j & k' & Hj & Hk' & Hkk')]);
          exists k; (split; [done|]).
        -- left. exists s. split; [by right | done].
        -- destruct j as [|j].
           ++ injection Hk' as <-. left. exists k0. split; [by left|done].
           ++ right. exists j, k'. split; [lia | done].
Qed.

Lemma filter_mask_count {A} (m : list bool) (xs : list A) :
  length m = length xs → length (filter_mask m xs) = count_true m.
Proof.
  unfold count_true. revert xs.
  induction m as [|b m IH]; intros [|x xs]; try done.
  intros [= Hlen]. cbn [filter_mask]. rewrite filter_cons.
  destruct b; [rewrite decide_True by done | rewrite decide_False by done];
    cbn [length]; by rewrite IH.
Qed.

Lemma count_true_false (m : list bool) :
  (count_true m + length (filter (λ b, b = false) m) = length m)%nat.
Proof.
  unfold count_true. induction m as [|[] m IH]; [done|..];
    rewrite !filter_cons; cbn [length] in *.
  - rewrite decide_True, decide_False by done. cbn [length]. lia.
  - rewrite decide_False, decide_True by done. cbn [length]. lia.
Qed.

Lemma existsb_insert_class x k cs :
  existsb (value_eqb x) (insert_class k cs)
  = value_eqb x k || existsb (value_eqb x) cs.
Proof.
  induction cs as [|c cs IH]; cbn [insert_class existsb]; [done|].
  destruct (value_compare k c) eqn:Hkc; cbn [existsb].
  - assert (value_eqb x k = value_eqb x c) as ->.
    { rewrite (value_eqb_sym x k), (value_eqb_sym x c).
      apply value_eqb_l. by apply value_eqb_eq. }
    by destruct (value_eqb x c).
  - done.
  - rewrite IH. by destruct (value_eqb x k), (value_eqb x c).
Qed.

Lemma sorted_head_not_later c cs x :
  Forall (value_lt c) cs → value_compare x c ≠ Gt →
  existsb (value_eqb x) cs = false.
Proof.
  intros Hc Hx. apply not_true_is_false.
  intros (d & Hd & Hxd)%existsb_eqb_elem.
  apply (proj1 (Forall_forall _ _) Hc) in Hd. unfold value_lt in Hd.
  rewrite <- (value_compare_eq_r c x d Hxd) in Hd.
  apply Hx. by apply value_compare_Gt.
Qed.

(** Inserting a value lengthens an ascending list by one unless the
    value is already there. *)
Lemma insert_class_length x cs :
  StronglySorted value_lt cs →
  length (insert_class x cs)
  = if existsb (value_eqb x) cs then length cs else S (length cs).
Proof.
  induction 1 as [|c cs Hsorted IH Hc]; [done|].
  cbn [insert_class existsb]. unfold value_eqb at 1.
  destruct (value_compare x c) eqn:Hxc; cbn [orb length].
  - done.
  - rewrite (sorted_head_not_later c cs x Hc) by congruence. done.
  - rewrite IH. by destruct (existsb (value_eqb x) cs).
Qed.

(** Two ascending lists with the same members have the same length. *)
Lemma sorted_same_members_length l1 l2 :
  StronglySorted value_lt l1 → StronglySorted value_lt l2 →
  (∀ x, existsb (value_eqb x) l1 = existsb (value_eqb x) l2) →
  length l1 = length l2.
Proof.
  intros H1. revert l2.
  induction H1 as [|a l1 Hs1 IH Ha]; intros l2 H2 Hmem.
  - destruct l2 as [|b l2]; [done|].
    specialize (Hmem b). cbn in Hmem. by rewrite value_eqb_refl in Hmem.
  - destruct H2 as [|b l2 Hs2 Hb].
    { specialize (Hmem a). cbn in Hmem. by rewrite value_eqb_refl in Hmem. }
    assert (Hab : value_compare a b = Eq).
    { pose proof (Hmem a) as Hma. pose proof (Hmem b) as Hmb.
      cbn [existsb] in Hma, Hmb.
      rewrite value_eqb_refl in Hma, Hmb. cbn [orb] in Hma, Hmb.
      destruct (value_compare a b) eqn:Hcmp; [done|..].
      - (* a < b: a is below every member of the second list *)
        symmetry in Hma. apply orb_true_iff in Hma as [Hma|Hma].
        + apply value_eqb_eq in Hma. congruence.
        + rewrite (sorted_head_not_later b l2 a Hb) in Hma by congruence.
          done.
      - (* b < a: b is below every member of the first list *)
        apply orb_true_iff in Hmb as [Hmb|Hmb].
        + apply value_eqb_eq in Hmb.
          rewrite value_compare_antisym, Hcmp in Hmb. done.
        + rewrite (sorted_head_not_later a l1 b Ha) in Hmb; [done|].
          rewrite value_compare_antisym, Hcmp. done. }
    cbn [length]. f_equal. apply IH; [done|]. intros x.
    specialize (Hmem x). cbn [existsb] in Hmem.
    assert (value_eqb x a = value_eqb x b) as Hxab.
    { rewrite (value_eqb_sym x a), (value_eqb_sym x b).
      apply value_eqb_l. by apply value_eqb_eq. }
    rewrite Hxab in Hmem.
    destruct (value_eqb x b) eqn:Hxb; [|done].
    rewrite (sorted_head_not_later a l1 x Ha),
      (sorted_head_not_later b l2 x Hb); [done|..].
    + apply value_eqb_eq in Hxb. congruence.
    + apply value_eqb_eq in Hxab. congruence.
Qed.

Lemma existsb_classes_of x y :
  existsb (value_eqb x) (classes_of y) = existsb (value_eqb x) y.
Proof.
  induction y as [|v y IH]; [done|]. cbn [classes_of foldr existsb].
  by rewrite existsb_insert_class, <- IH.
Qed.

(** The rows the scan leaves unflagged are as many as the classes it
    adds to those already met. *)
Lemma duplicated_from_fresh seen S keys :
  StronglySorted value_lt S →
  (∀ x, existsb (value_eqb x) seen = existsb (value_eqb x) S) →
  ∃ S', StronglySorted value_lt S'
      ∧ (∀ x, existsb (value_eqb x) S'
              = existsb (value_eqb x) S || existsb (value_eqb x) keys)
      ∧ (length (filter (λ b, b = false) (duplicated_from seen keys))
         + length S = length S')%nat.
Proof.
  revert seen S. induction keys as [|k keys IH]; intros seen S HS Hrepr.
  - exists S. split; [done|]. split; [|cbn; lia].
    intros x. cbn. by rewrite orb_false_r.
  - destruct (IH (k :: seen) (insert_class k S)) as (S' & HS' & Hmem & Hlen).
    { by apply insert_class_sorted. }
    { intros x. cbn [existsb].
      by rewrite existsb_insert_class, Hrepr. }
    exists S'. split; [done|]. split.
    + intros x. rewrite Hmem, existsb_insert_class. cbn [existsb].
      by destruct (value_eqb x k), (existsb (value_eqb x) S).
    + cbn [duplicated_from]. rewrite filter_cons.
      rewrite insert_class_length in Hlen by done.
      rewrite Hrepr.
      destruct (existsb (value_eqb k) S).
      * rewrite decide_False by done. lia.
      * rewrite decide_True by done. cbn [length]. lia.
Qed.

Lemma duplicated_from_length seen keys :
  length (duplicated_from seen keys) = length keys.
Proof.
  revert seen. induction keys as [|k keys IH]; intros seen; [done|].
  cbn. by rewrite IH.
Qed.

(** Flagged rows and distinct keys add up to the rows. *)
Lemma duplicated_count keys :
  (count_true (duplicated_from [] keys) + length (classes_of keys)
   = length keys)%nat.
Proof.
  destruct (duplicated_from_fresh [] [] keys) as (S' & HS' & Hmem & Hlen);
    [constructor | done |].
  assert (length S' = length (classes_of keys)) as HS.
  { apply sorted_same_members_length; [done | apply classes_of_sorted |].
    intros x. by rewrite Hmem, existsb_classes_of. }
  pose proof (count_true_false (duplicated_from [] keys)) as Hsum.
  pose proof (duplicated_from_length [] keys) as Hl.
  cbn [length] in Hlen. lia.
Qed.

Lemma count_duplicates_Ok df key keys :
  wf df → getitem df key = Ok keys →
  count_duplicates df key
  = Ok (count_true (duplicated_from [] keys))
  ∧ (count_true (duplicated_from [] keys) + length (classes_of keys)
     = nrows df)%nat.
Proof.
  intros Hwf Hkeys.
  assert (Hlen : length keys = nrows df)
    by (eapply wf_column_length; [done | by apply getitem_Ok]).
  unfold count_duplicates, duplicated. rewrite Hkeys. cbn [bind].
  rewrite mask_rows_Ok by (by rewrite duplicated_from_length).
  cbn [bind]. unfold nrows at 1. cbn [df_index]. split.
  - f_equal. apply filter_mask_count.
    rewrite duplicated_from_length. exact Hlen.
  - rewrite <- Hlen. apply duplicated_count.
Qed.

Lemma count_duplicates_missing df key :
  key ∉ col_names df → count_duplicates df key = Raise KeyError.
Proof.
  intros Hkey%getitem_Raise. unfold count_duplicates, duplicated.
  by rewrite Hkey.
Qed.

Lemma count_true_zero flags :
  count_true flags = 0%nat ↔ ∀ i, flags !! i ≠ Some true.
Proof.
  unfold count_true. induction flags as [|b flags IH].
  - split; [by intros _ i | done].
  - rewrite filter_cons. destruct b.
    + rewrite decide_True by done. split; [done|].
      intros H. by destruct (H 0%nat).
    + rewrite decide_False by done. rewrite IH. split.
      * intros H [|i]; [done | apply H].
      * intros H i. apply (H (S i)).
Qed.

(** X1.  [duplicated] flags a row exactly when a row above it has an
    equal key: the first row of every key is never flagged. *)
Theorem duplicated_flags_repeats
    (df : DataFrame) (subset : string) (keys : list value) :
  getitem df subset = Ok keys →
  ∃ flags,
    duplicated df subset = Ok flags
    ∧ length flags = length keys
    ∧ ∀ i, flags !! i = Some true
           ↔ ∃ j ki kj, (j < i)%nat ∧ keys !! i = Some ki
                        ∧ keys !! j = Some kj
                        ∧ value_compare ki kj = Eq.
Proof.
  intros Hkeys. unfold duplicated. rewrite Hkeys. cbn [bind].
  eexists. split; [done|]. split; [apply duplicated_from_length|].
  intros i. rewrite duplicated_from_lookup. split.
  - intros (k & Hk & [(s & Hs & _)|(j & k' & Hj & Hk' & Hkk')]).
    + by apply not_elem_of_nil in Hs.
    + by exists j, k, k'.
  - intros (j & ki & kj & Hj & Hi & Hkj & Heq).
    exists ki. split; [done|]. right. by exists j, kj.
Qed.

Lemma duplicated_flags_repeats_witness :
  ∃ flags,
    duplicated sample_accounts "account_id" = Ok flags
    ∧ length flags = length (VNum <$> [576; 3818; 576]%Q)
    ∧ ∀ i, flags !! i = Some true
           ↔ ∃ j ki kj, (j < i)%nat
                        ∧ (VNum <$> [576; 3818; 576]%Q) !! i = Some ki
                        ∧ (VNum <$> [576; 3818; 576]%Q) !! j = Some kj
                        ∧ value_compare ki kj = Eq.
Proof.
  apply (duplicated_flags_repeats sample_accounts "account_id"
           (VNum <$> [576; 3818; 576]%Q)).
  reflexivity.
Defined.

(** X2.  On a well-formed table the count of repeated keys is 0 exactly
    when no two rows have equal keys. *)
Theorem count_duplicates_zero_iff_unique
    (df : DataFrame) (key : string) (keys : list value) :
  wf df → getitem df key = Ok keys →
  count_duplicates df key = Ok 0%nat
  ↔ ∀ i j ki kj, (i < j)%nat → keys !! i = Some ki → keys !! j = Some kj →
                 value_compare kj ki ≠ Eq.
Proof.
  intros Hwf Hkeys.
  destruct (count_duplicates_Ok df key keys Hwf Hkeys) as [-> _].
  split.
  - intros [= Hzero]. intros i j ki kj Hij Hi Hj Heq.
    apply (proj1 (count_true_zero _) Hzero j).
    apply duplicated_from_lookup. exists kj. split; [done|].
    right. by exists i, ki.
  - intros Huniq. f_equal. apply count_true_zero. intros j.
    rewrite duplicated_from_lookup.
    intros (kj & Hj & [(s & Hs & _)|(i & ki & Hij & Hi & Heq)]).
    + by apply not_elem_of_nil in Hs.
    + by apply (Huniq i j ki kj).
Qed.

Lemma count_duplicates_zero_iff_unique_witness :
  count_duplicates sample_clients "client_id" = Ok 0%nat
  ↔ ∀ i j ki kj, (i < j)%nat →
      (VNum <$> [692; 4601]%Q) !! i = Some ki →
      (VNum <$> [692; 4601]%Q) !! j = Some kj →
      value_compare kj ki ≠ Eq.
Proof.
  apply (count_duplicates_zero_iff_unique sample_clients "client_id"
           (VNum <$> [692; 4601]%Q)).
  - split; [by apply (bool_decide_unpack _) | by repeat constructor].
  - reflexivity.
Defined.

Section reports_props.
Variables (Out : Type) (log : string → bool → Out).

(** X3.  On well-formed tables [checkForDuplicates] hands [log] a report
    in which each table's number is its row count less the number of
    distinct keys; it raises [KeyError] when a table lacks its key
    column, the key of the districts table being [code ] with a
    trailing blank. *)
Theorem checkForDuplicates_report
    (accounts cards clients dispositions districts loans transactions
       : DataFrame) (verbose : bool) :
  Forall (λ p, wf p.1)
    (key_columns accounts cards clients dispositions districts loans
       transactions) →
  (∀ ka kc kcl kd kdi kl kt,
     getitem accounts "account_id" = Ok ka →
     getitem cards "card_id" = Ok kc →
     getitem clients "client_id" = Ok kcl →
     getitem dispositions "disp_id" = Ok kd →
     getitem districts "code " = Ok kdi →
     getitem loans "loan_id" = Ok kl →
     getitem transactions "trans_id" = Ok kt →
     checkForDuplicates Out log accounts cards clients dispositions
       districts loans transactions verbose
     = Ok (log (report "Dataset Duplicates:"
                  (nrows accounts - length (classes_of ka))
                  (nrows cards - length (classes_of kc))
                  (nrows clients - length (classes_of kcl))
                  (nrows dispositions - length (classes_of kd))
                  (nrows districts - length (classes_of kdi))
                  (nrows loans - length (classes_of kl))
                  (nrows transactions - length (classes_of kt)))
             verbose))
  ∧ (Exists (λ p, p.2 ∉ col_names p.1)
       (key_columns accounts cards clients dispositions districts loans
          transactions) →
     checkForDuplicates Out log accounts cards clients dispositions
       districts loans transactions verbose
     = Raise KeyError).
Proof.
  unfold key_columns. intros Hwf.
  repeat (apply Forall_cons in Hwf as [? Hwf]). cbn [fst] in *.
  split.
  - intros ka kc kcl kd kdi kl kt Ha Hc Hcl Hd Hdi Hl Ht.
    unfold checkForDuplicates.
    repeat match goal with
      | Hw : wf ?df, Hk : getitem ?df ?key = Ok ?keys
        |- context [count_duplicates ?df ?key] =>
          let Hrun := fresh in let Hsum := fresh in
          destruct (count_duplicates_Ok df key keys Hw Hk) as [Hrun Hsum];
          rewrite Hrun; cbn [bind];
          replace (count_true (duplicated_from [] keys))
            with (nrows df - length (classes_of keys))%nat by lia;
          clear Hrun Hsum
      end.
    done.
  - intros Hmiss. unfold checkForDuplicates.
    repeat match goal with
      | Hw : wf ?df |- context [count_duplicates ?df ?key] =>
          let Hin := fresh "Hin" in
          let Hnin := fresh "Hnin" in
          destruct (decide (key ∈ col_names df)) as [Hin|Hnin];
          [ apply getitem_is_Ok in Hin as [? Hin];
            rewrite (proj1 (count_duplicates_Ok df key _ Hw Hin));
            cbn [bind]; clear Hw
          | by rewrite (count_duplicates_missing df key Hnin) ]
      end.
    exfalso.
    repeat match goal with
      | H : Exists _ (_ :: _) |- _ => apply Exists_cons in H as [H|H]
      | H : Exists _ [] |- _ => by apply Exists_nil in H
      | H : _ ∉ col_names _ |- _ =>
          cbn [fst snd] in H; apply getitem_Raise in H; congruence
      end.
Qed.
End reports_props.

Lemma checkForDuplicates_report_witness :
  (∀ ka kc kcl kd kdi kl kt,
     getitem sample_accounts "account_id" = Ok ka →
     getitem sample_cards "card_id" = Ok kc →
     getitem sample_clients "client_id" = Ok kcl →
     getitem sample_dispositions "disp_id" = Ok kd →
     getitem sample_districts "code " = Ok kdi →
     getitem sample_loans "loan_id" = Ok kl →
     getitem sample_transactions "trans_id" = Ok kt →
     checkForDuplicates (string * bool) pair sample_accounts sample_cards
       sample_clients sample_dispositions sample_districts sample_loans
       sample_transactions true
     = Ok (report "Dataset Duplicates:"
             (nrows sample_accounts - length (classes_of ka))
             (nrows sample_cards - length (classes_of kc))
             (nrows sample_clients - length (classes_of kcl))
             (nrows sample_dispositions - length (classes_of kd))
             (nrows sample_districts - length (classes_of kdi))
             (nrows sample_loans - length (classes_of kl))
             (nrows sample_transactions - length (classes_of kt)),
           true))
  ∧ (Exists (λ p, p.2 ∉ col_names p.1)
       (key_columns sample_accounts sample_cards sample_clients
          sample_dispositions sample_districts sample_loans
          sample_transactions) →
     checkForDuplicates (string * bool) pair sample_accounts sample_cards
       sample_clients sample_dispositions sample_districts sample_loans
       sample_transactions true
     = Raise KeyError).
Proof.
  apply (checkForDuplicates_report (string * bool) pair).
  repeat apply Forall_cons_2; [..|apply Forall_nil_2];
    (split; [by apply (bool_decide_unpack _) | by repeat constructor]).
Defined.

Example checkForDuplicates_sample :
  checkForDuplicates (string * bool) pair sample_accounts sample_cards
    sample_clients sample_dispositions sample_districts sample_loans
    sample_transactions true
  = Ok (report "Dataset Duplicates:" 1 0 0 0 0 0 0, true).
Proof. vm_compute. reflexivity. Qed.

(** Asking the districts table for [code] without the blank fails. *)
Example count_duplicates_code_without_blank :
  count_duplicates sample_districts "code" = Raise KeyError.
Proof. reflexivity. Qed.

Example printDatasetSizes_sample :
  printDatasetSizes (string * bool) pair sample_accounts sample_cards
    sample_clients sample_dispositions sample_districts sample_loans
    sample_transactions false
  = (report "Dataset Sizes:" 3 1 2 2 2 2 0, false).
Proof. reflexivity. Qed.

(** ** Salary imputer: further properties *)

Lemma for_each_ext {A S} (f g : S → A → result S) xs s :
  (∀ x s', x ∈ xs → f s' x = g s' x) →
  for_each f xs s = for_each g xs s.
Proof.
  revert s. induction xs as [|x xs IH]; intros s Hfg; [done|].
  cbn [for_each]. rewrite (Hfg x s) by left.
  destruct (g s x); cbn [bind]; [|done].
  apply IH. intros y s' Hy. apply Hfg. by right.
Qed.

(** The mapping returned, entry by entry. *)
Lemma processZeroSalaries_lookup salaries districtAvgSalary substituteWithAvg :
  (∀ k v, salaries !! k = Some v →
          is_Some (imputed districtAvgSalary substituteWithAvg k v)) →
  ∃ processed,
    processZeroSalaries salaries districtAvgSalary substituteWithAvg
      = Ok processed
    ∧ ∀ k, processed !! k
           = salaries !! k ≫= imputed districtAvgSalary substituteWithAvg k.
Proof.
  intros Hall.
  destruct (loop_complete districtAvgSalary substituteWithAvg
              (map_to_list salaries) ∅ (NoDup_fst_map_to_list _))
    as (m & Hrun & Hin & Hout).
  { intros k v Hkv%elem_of_map_to_list. by apply Hall. }
  exists m. split; [exact Hrun|]. intros k.
  destruct (salaries !! k) as [v|] eqn:Hs; cbn.
  - apply Hin. by apply elem_of_map_to_list.
  - rewrite Hout; [apply lookup_empty|].
    intros ([k' v'] & -> & Hkv%elem_of_map_to_list)%list_elem_of_fmap.
    cbn in Hs. congruence.
Qed.

Lemma processZeroSalaries_without_zero salaries districtAvgSalary flag :
  (∀ k v, salaries !! k = Some v → ¬ (v == 0)%Q) →
  processZeroSalaries salaries districtAvgSalary flag = Ok salaries.
Proof.
  intros Hnz.
  assert (Himp : ∀ k v, salaries !! k = Some v →
            imputed districtAvgSalary flag k v = Some v).
  { intros k v Hs. unfold imputed, is_zero.
    destruct (Qeq_bool v 0) eqn:Hz; [|done].
    apply Qeq_bool_iff in Hz. by destruct (Hnz k v). }
  destruct (processZeroSalaries_lookup salaries districtAvgSalary flag)
    as (m & -> & Hm).
  { intros k v Hs. rewrite (Himp k v Hs). by eexists. }
  f_equal. apply map_eq. intros k. rewrite Hm.
  destruct (salaries !! k) as [v|] eqn:Hs; cbn; [by apply Himp | done].
Qed.

(** X4.  A mapping without zero salaries is returned as it is, whatever
    the flag and whatever the district averages hold. *)
Theorem processZeroSalaries_nothing_to_impute
    (salaries districtAvgSalary : gmap Z Q) (substituteWithAvg : bool) :
  (∀ accountId salary,
     salaries !! accountId = Some salary → ¬ (salary == 0)%Q) →
  processZeroSalaries salaries districtAvgSalary substituteWithAvg
  = Ok salaries.
Proof.
  intros Hnz.
  destruct (processZeroSalaries_lookup salaries districtAvgSalary
              substituteWithAvg) as (m & -> & Hm).
  - intros k v Hs. unfold imputed, is_zero.
    destruct (Qeq_bool v 0) eqn:Hz; [|by eexists].
    apply Qeq_bool_iff in Hz. by destruct (Hnz k v).
  - f_equal. apply map_eq. intros k. rewrite Hm.
    destruct (salaries !! k) as [v|] eqn:Hs; cbn; [|done].
    unfold imputed, is_zero. destruct (Qeq_bool v 0) eqn:Hz; [|done].
    apply Qeq_bool_iff in Hz. by destruct (Hnz k v).
Qed.

Lemma processZeroSalaries_nothing_to_impute_witness :
  processZeroSalaries {[ 1 := 700%Q; 2 := 500%Q ]} ∅ true
  = Ok {[ 1 := 700%Q; 2 := 500%Q ]}.
Proof.
  apply (processZeroSalaries_nothing_to_impute
           {[ 1 := 700%Q; 2 := 500%Q ]} ∅ true).
  intros k v Hkv Hz.
  apply lookup_insert_Some in Hkv as [[_ <-]|[_ Hkv]]; [done|].
  apply lookup_singleton_Some in Hkv as [_ <-]. done.
Defined.

(** X5.  With [substituteWithAvg] false the function never raises, its
    result holds no zero salary, and running it again on that result,
    with either flag and any averages, gives the result back. *)
Theorem processZeroSalaries_constant_settles
    (salaries districtAvgSalary : gmap Z Q) :
  ∃ processed,
    processZeroSalaries salaries districtAvgSalary false = Ok processed
    ∧ (∀ accountId salary,
         processed !! accountId = Some salary → ¬ (salary == 0)%Q)
    ∧ ∀ districtAvgSalary' substituteWithAvg',
        processZeroSalaries processed districtAvgSalary' substituteWithAvg'
        = Ok processed.
Proof.
  destruct (processZeroSalaries_lookup salaries districtAvgSalary false)
    as (m & Hrun & Hm).
  { intros k v _. unfold imputed. destruct (is_zero v); by eexists. }
  assert (Hnz : ∀ k v, m !! k = Some v → ¬ (v == 0)%Q).
  { intros k v. rewrite Hm.
    destruct (salaries !! k) as [w|]; cbn; [|done].
    unfold imputed, is_zero. destruct (Qeq_bool w 0) eqn:Hz.
    - by intros [= <-].
    - intros [= <-]. by apply Qeq_bool_neq. }
  exists m. split; [done|]. split; [done|].
  intros avg' b'. by apply processZeroSalaries_without_zero.
Qed.

(** X6.  The district averages are read at the accounts with salary 0
    only: two tables of averages that agree there give the same outcome,
    mapping or exception. *)
Theorem processZeroSalaries_reads_zero_accounts
    (salaries avg1 avg2 : gmap Z Q) (substituteWithAvg : bool) :
  (∀ accountId salary,
     salaries !! accountId = Some salary → (salary == 0)%Q →
     avg1 !! accountId = avg2 !! accountId) →
  processZeroSalaries salaries avg1 substituteWithAvg
  = processZeroSalaries salaries avg2 substituteWithAvg.
Proof.
  intros Hagree. unfold processZeroSalaries. apply for_each_ext.
  intros [k v] acc Hkv%elem_of_map_to_list.
  unfold processZeroSalaries_body, is_zero, dict_get.
  destruct (Qeq_bool v 0) eqn:Hz; [|done].
  destruct substituteWithAvg; [|done].
  apply Qeq_bool_iff in Hz. by rewrite (Hagree k v Hkv Hz).
Qed.

Lemma processZeroSalaries_reads_zero_accounts_witness :
  processZeroSalaries {[ 1 := 0%Q; 2 := 500%Q ]}
    {[ 1 := 900%Q; 2 := 650%Q ]} true
  = processZeroSalaries {[ 1 := 0%Q; 2 := 500%Q ]} {[ 1 := 900%Q ]} true.
Proof.
  apply (processZeroSalaries_reads_zero_accounts
           {[ 1 := 0%Q; 2 := 500%Q ]} {[ 1 := 900%Q; 2 := 650%Q ]}
           {[ 1 := 900%Q ]} true).
  intros k v Hkv Hz.
  apply lookup_insert_Some in Hkv as [[<- _]|[_ Hkv]]; [reflexivity|].
  apply lookup_singleton_Some in Hkv as [_ <-]. done.
Defined.

(** ** Feature joiner: further properties *)

Lemma features_app_nil_l f : features_app no_features f = f.
Proof. by destruct f. Qed.

Lemma features_app_nil_r f : features_app f no_features = f.
Proof. destruct f. unfold features_app. cbn. by rewrite !app_nil_r. Qed.

Lemma features_app_assoc f1 f2 f3 :
  features_app f1 (features_app f2 f3) = features_app (features_app f1 f2) f3.
Proof. unfold features_app. cbn. by rewrite !app_assoc. Qed.

Lemma omap_cons_app {A B} (f : A → option B) x l :
  omap f (x :: l) = option_list (f x) ++ omap f l.
Proof. cbn. by destruct (f x). Qed.

Section joiner_extras.
Variables (clients : list Client.t) (dispositions : list Disp.t)
          (genders ageGroups : list value)
          (effortRates savingsRates districtCrimeRates expenses : gmap Z Q)
          (ages : list value).

Local Abbreviation body :=
  (combineFeatures_body clients dispositions genders ageGroups
     effortRates savingsRates districtCrimeRates expenses ages).
Local Abbreviation run loans :=
  (combineFeatures loans clients dispositions genders ageGroups
     effortRates savingsRates districtCrimeRates expenses ages).
Local Abbreviation demo := (demographic_of clients dispositions).

(** A round of the loop appends what it would produce from scratch. *)
Lemma body_from_scratch acc row :
  body acc row
  = let* one := body no_features row in Ok (features_app acc one).
Proof.
  unfold combineFeatures_body, features_app.
  destruct (resolveClient dispositions (Loan.account_id row)) as [cid|].
  - destruct (clientIndexOf clients cid) as [i|]; [|done]. cbn [bind].
    destruct (array_get genders i); [|done].
    destruct (array_get ageGroups i); [|done].
    destruct (array_get ages i); [|done]. cbn [bind fst snd].
    destruct (dict_get effortRates _); [|done].
    destruct (dict_get savingsRates _); [|done].
    destruct (dict_get districtCrimeRates _); [|done]. done.
  - cbn [bind fst snd].
    destruct (dict_get effortRates _); [|done].
    destruct (dict_get savingsRates _); [|done].
    destruct (dict_get districtCrimeRates _); [|done].
    cbn. by rewrite !app_nil_r.
Qed.

Lemma run_from_scratch loans acc :
  for_each body loans acc
  = let* f := for_each body loans no_features in Ok (features_app acc f).
Proof.
  revert acc. induction loans as [|row loans IH]; intros acc.
  - cbn. by rewrite features_app_nil_r.
  - rewrite !for_each_cons, (body_from_scratch acc row).
    destruct (body no_features row) as [one|]; [|done]. cbn [bind].
    rewrite (IH (features_app acc one)), (IH one).
    destruct (for_each body loans no_features) as [f|]; [|done].
    cbn [bind]. by rewrite features_app_assoc.
Qed.

(** X7.  Loans can be joined in batches: the run over two batches one
    after the other is the run over each, with the columns of the second
    appended to those of the first, and it raises what the first failing
    batch raises. *)
Theorem combineFeatures_batches (loans1 loans2 : list Loan.t) :
  run (loans1 ++ loans2)
  = let* f1 := run loans1 in
    let* f2 := run loans2 in
    Ok (features_app f1 f2).
Proof.
  unfold combineFeatures. rewrite for_each_app.
  destruct (for_each body loans1 no_features) as [f1|]; [|done].
  cbn [bind]. apply run_from_scratch.
Qed.

Lemma run_Ok_contents loans acc f :
  for_each body loans acc = Ok f →
  Some <$> effortRateByLoan f
  = (Some <$> effortRateByLoan acc)
    ++ ((λ l, effortRates !! Loan.loan_id l) <$> loans)
  ∧ Some <$> savingsRateByLoan f
    = (Some <$> savingsRateByLoan acc)
      ++ ((λ l, savingsRates !! Loan.loan_id l) <$> loans)
  ∧ Some <$> distCrimeByLoan f
    = (Some <$> distCrimeByLoan acc)
      ++ ((λ l, districtCrimeRates !! Loan.account_id l) <$> loans)
  ∧ gendersByLoan f = gendersByLoan acc ++ omap (demo genders) loans
  ∧ ageGroupByLoan f = ageGroupByLoan acc ++ omap (demo ageGroups) loans
  ∧ agesByLoan f = agesByLoan acc ++ omap (demo ages) loans.
Proof.
  revert acc. induction loans as [|row loans IH]; intros acc.
  - intros [= <-]. cbn. by rewrite !app_nil_r.
  - rewrite for_each_cons.
    destruct (body acc row) as [acc'|] eqn:Hrow; cbn [bind]; [|done].
    intros (He & Hs & Hd & Hg & Hag & Ha)%IH.
    apply body_Ok_inv in Hrow
      as ((e & s & d & Hae & Has & Had & He' & Hs' & Hd') & _ & Hdemo).
    assert (Hone :
      gendersByLoan acc' = gendersByLoan acc ++ option_list (demo genders row)
      ∧ ageGroupByLoan acc'
        = ageGroupByLoan acc ++ option_list (demo ageGroups row)
      ∧ agesByLoan acc' = agesByLoan acc ++ option_list (demo ages row)).
    { unfold demographic_of.
      destruct (resolveClient dispositions (Loan.account_id row)) as [cid|].
      - destruct Hdemo as (i & g & ag & a & -> & -> & -> & -> & -> & -> & ->).
        done.
      - destruct Hdemo as (-> & -> & ->). cbn. by rewrite !app_nil_r. }
    destruct Hone as (Hg' & Hag' & Ha').
    rewrite He, Hs, Hd, Hg, Hag, Ha, He', Hs', Hd', Hg', Hag', Ha'.
    rewrite !fmap_app, !fmap_cons, Hae, Has, Had, !omap_cons_app,
      <- !app_assoc.
    done.
Qed.

Lemma run_Ok_joinable loans acc f :
  for_each body loans acc = Ok f →
  Forall (joinable clients dispositions genders ageGroups
            effortRates savingsRates districtCrimeRates ages) loans.
Proof.
  revert acc. induction loans as [|row loans IH]; intros acc;
    [by constructor|].
  rewrite for_each_cons.
  destruct (body acc row) as [acc'|] eqn:Hrow; cbn [bind]; [|done].
  intros Hrest. constructor; [|by eapply IH].
  apply body_Ok_inv in Hrow
    as ((e & s & d & Hae & Has & Had & _) & _ & Hdemo).
  split.
  - unfold demographics_ok.
    destruct (resolveClient dispositions (Loan.account_id row)); [|done].
    destruct Hdemo as (i & g & ag & a & Hi & Hg & Hag & Ha & _).
    exists i. rewrite Hg, Hag, Ha. by repeat split.
  - unfold missing_rate. rewrite Hae, Has, Had. by intros [|[|]].
Qed.

(** X8.  After a successful run the three rate columns hold, loan by
    loan and in order, the entries of the mappings at the loan's
    [loan_id] (effort and savings rate) and [account_id] (crime rate). *)
Theorem combineFeatures_rate_columns (loans : list Loan.t) (f : Features) :
  run loans = Ok f →
  Some <$> effortRateByLoan f
  = (λ l, effortRates !! Loan.loan_id l) <$> loans
  ∧ Some <$> savingsRateByLoan f
    = (λ l, savingsRates !! Loan.loan_id l) <$> loans
  ∧ Some <$> distCrimeByLoan f
    = (λ l, districtCrimeRates !! Loan.account_id l) <$> loans.
Proof.
  intros (He & Hs & Hd & _)%run_Ok_contents. by rewrite He, Hs, Hd.
Qed.

(** X9.  After a successful run each demographic column holds, in loan
    order, the array entries of the loans whose account has a
    disposition, the others being skipped; when every loan's account
    has one, the column has one entry per loan, the loan's own. *)
Theorem combineFeatures_demographic_columns
    (loans : list Loan.t) (f : Features) :
  run loans = Ok f →
  (gendersByLoan f = omap (demo genders) loans
   ∧ ageGroupByLoan f = omap (demo ageGroups) loans
   ∧ agesByLoan f = omap (demo ages) loans)
  ∧ (Forall (λ l, resolves dispositions l = true) loans →
     Some <$> gendersByLoan f = demo genders <$> loans
     ∧ Some <$> ageGroupByLoan f = demo ageGroups <$> loans
     ∧ Some <$> agesByLoan f = demo ages <$> loans).
Proof.
  intros Hrun.
  pose proof (run_Ok_joinable _ _ _ Hrun) as Hall.
  apply run_Ok_contents in Hrun as (_ & _ & _ & Hg & Hag & Ha).
  cbn [no_features gendersByLoan ageGroupByLoan agesByLoan app] in *.
  split; [done|]. intros Hres. rewrite Hg, Hag, Ha. clear Hg Hag Ha.
  induction loans as [|row loans IH]; [done|].
  apply Forall_cons in Hres as [Hrow Hres].
  apply Forall_cons in Hall as [[Hdemo _] Hall].
  destruct (IH Hall Hres) as (IHg & IHag & IHa).
  unfold resolves in Hrow. apply bool_decide_eq_true in Hrow as [cid Hcid].
  unfold demographics_ok in Hdemo. rewrite Hcid in Hdemo.
  destruct Hdemo as (i & Hi & [g Hg] & [ag Hag] & [a Ha]).
  assert (demo genders row = Some g) as Hdg
    by (unfold demographic_of; by rewrite Hcid, Hi).
  assert (demo ageGroups row = Some ag) as Hdag
    by (unfold demographic_of; by rewrite Hcid, Hi).
  assert (demo ages row = Some a) as Hda
    by (unfold demographic_of; by rewrite Hcid, Hi).
  rewrite !omap_cons_app, !fmap_cons, Hdg, Hdag, Hda.
  rewrite <- IHg, <- IHag, <- IHa. done.
Qed.

(** X10.  A run succeeds exactly on joinable loans: every loan has its
    three mandatory rates, and every loan whose account has a
    disposition finds its client in the clients table at a position of
    the three arrays. *)
Theorem combineFeatures_succeeds_iff_joinable (loans : list Loan.t) :
  (∃ f, run loans = Ok f)
  ↔ Forall (joinable clients dispositions genders ageGroups
              effortRates savingsRates districtCrimeRates ages) loans.
Proof.
  split; [|apply run_joinable].
  intros [f Hrun]. by eapply run_Ok_joinable.
Qed.
End joiner_extras.

Lemma combineFeatures_rate_columns_witness :
  Some <$> effortRateByLoan
             (mkFeatures [VStr "F"] [VStr "adult"] [3%Q; 4%Q] [5%Q; 6%Q]
                [7%Q; 8%Q] [0%Q; 9%Q] [VNum 40])
  = (λ l, ({[ 1 := 3%Q; 2 := 4%Q ]} : gmap Z Q) !! Loan.loan_id l)
      <$> [Loan.mk 1 10; Loan.mk 2 20]
  ∧ Some <$> savingsRateByLoan
               (mkFeatures [VStr "F"] [VStr "adult"] [3%Q; 4%Q] [5%Q; 6%Q]
                  [7%Q; 8%Q] [0%Q; 9%Q] [VNum 40])
    = (λ l, ({[ 1 := 5%Q; 2 := 6%Q ]} : gmap Z Q) !! Loan.loan_id l)
        <$> [Loan.mk 1 10; Loan.mk 2 20]
  ∧ Some <$> distCrimeByLoan
               (mkFeatures [VStr "F"] [VStr "adult"] [3%Q; 4%Q] [5%Q; 6%Q]
                  [7%Q; 8%Q] [0%Q; 9%Q] [VNum 40])
    = (λ l, ({[ 10 := 7%Q; 20 := 8%Q ]} : gmap Z Q) !! Loan.account_id l)
        <$> [Loan.mk 1 10; Loan.mk 2 20].
Proof.
  apply (combineFeatures_rate_columns [Client.mk 0 7] [Disp.mk 20 7]
           [VStr "F"] [VStr "adult"] {[ 1 := 3%Q; 2 := 4%Q ]}
           {[ 1 := 5%Q; 2 := 6%Q ]} {[ 10 := 7%Q; 20 := 8%Q ]}
           {[ 20 := 9%Q ]} [VNum 40] [Loan.mk 1 10; Loan.mk 2 20]).
  vm_compute. reflexivity.
Defined.

Lemma combineFeatures_demographic_columns_witness :
  ([VStr "F"; VStr "M"]
   = omap (demographic_of [Client.mk 0 7; Client.mk 1 8]
             [Disp.mk 10 8; Disp.mk 20 7] [VStr "F"; VStr "M"])
       [Loan.mk 1 20; Loan.mk 2 10]
   ∧ [VStr "adult"; VStr "young"]
     = omap (demographic_of [Client.mk 0 7; Client.mk 1 8]
               [Disp.mk 10 8; Disp.mk 20 7] [VStr "adult"; VStr "young"])
         [Loan.mk 1 20; Loan.mk 2 10]
   ∧ [VNum 40; VNum 23]
     = omap (demographic_of [Client.mk 0 7; Client.mk 1 8]
               [Disp.mk 10 8; Disp.mk 20 7] [VNum 40; VNum 23])
         [Loan.mk 1 20; Loan.mk 2 10])
  ∧ (Forall (λ l, resolves [Disp.mk 10 8; Disp.mk 20 7] l = true)
       [Loan.mk 1 20; Loan.mk 2 10] →
     Some <$> [VStr "F"; VStr "M"]
     = demographic_of [Client.mk 0 7; Client.mk 1 8]
         [Disp.mk 10 8; Disp.mk 20 7] [VStr "F"; VStr "M"]
         <$> [Loan.mk 1 20; Loan.mk 2 10]
     ∧ Some <$> [VStr "adult"; VStr "young"]
       = demographic_of [Client.mk 0 7; Client.mk 1 8]
           [Disp.mk 10 8; Disp.mk 20 7] [VStr "adult"; VStr "young"]
           <$> [Loan.mk 1 20; Loan.mk 2 10]
     ∧ Some <$> [VNum 40; VNum 23]
       = demographic_of [Client.mk 0 7; Client.mk 1 8]
           [Disp.mk 10 8; Disp.mk 20 7] [VNum 40; VNum 23]
           <$> [Loan.mk 1 20; Loan.mk 2 10]).
Proof.
  apply (combineFeatures_demographic_columns
           [Client.mk 0 7; Client.mk 1 8] [Disp.mk 10 8; Disp.mk 20 7]
           [VStr "F"; VStr "M"] [VStr "adult"; VStr "young"]
           {[ 1 := 3%Q; 2 := 4%Q ]} {[ 1 := 5%Q; 2 := 6%Q ]}
           {[ 10 := 7%Q; 20 := 8%Q ]} ∅ [VNum 40; VNum 23]
           [Loan.mk 1 20; Loan.mk 2 10]
           (mkFeatures [VStr "F"; VStr "M"] [VStr "adult"; VStr "young"]
              [3%Q; 4%Q] [5%Q; 6%Q] [8%Q; 7%Q] [0%Q; 0%Q]
              [VNum 40; VNum 23])).
  vm_compute. reflexivity.
Defined.

(** X11.  The client's position is the index label of the first row of
    the clients table that carries the [client_id]; rows further down
    with the same [client_id] are not looked at. *)
Theorem clientIndexOf_first_row
    (clients : list Client.t) (i : nat) (c : Client.t) :
  clients !! i = Some c →
  (∀ j c', (j < i)%nat → clients !! j = Some c' →
           Client.client_id c' ≠ Client.client_id c) →
  clientIndexOf clients (Client.client_id c) = Ok (Client.index c).
Proof.
  unfold clientIndexOf. revert i.
  induction clients as [|c0 clients IH]; intros i; [done|].
  destruct i as [|i]; cbn [lookup list_lookup].
  - intros [= ->] _. by rewrite filter_cons_True.
  - intros Hc Hfirst. rewrite filter_cons_False.
    + apply (IH i Hc). intros j c' Hj Hc'.
      apply (Hfirst (S j) c'); [lia | done].
    + apply (Hfirst 0%nat c0); [lia | done].
Qed.

Lemma clientIndexOf_first_row_witness :
  clientIndexOf [Client.mk 0 7; Client.mk 1 8; Client.mk 2 8]
    (Client.client_id (Client.mk 1 8))
  = Ok (Client.index (Client.mk 1 8)).
Proof.
  apply (clientIndexOf_first_row
           [Client.mk 0 7; Client.mk 1 8; Client.mk 2 8] 1 (Client.mk 1 8)).
  - reflexivity.
  - intros [|j] c' Hj; [|lia]. by intros [= <-].
Defined.

(** ** Cleaner: further properties *)

Lemma drop_without_column df col :
  col ∈ col_names df → drop df col = Ok (without_column df col).
Proof. apply drop_Ok. Qed.

Lemma col_names_without_column df col c :
  c ∈ col_names (without_column df col) ↔ c ≠ col ∧ c ∈ col_names df.
Proof. unfold col_names, without_column. cbn [df_columns]. apply names_drop. Qed.

(** X12.  [cleanData] raises, and then [KeyError], exactly when the
    table lacks [loan_id] or [account_id]; it cannot be applied twice:
    on its own result it always raises [KeyError]. *)
Theorem cleanData_outcome (loansDataFrame : DataFrame) :
  (cleanData loansDataFrame = Raise KeyError
   ↔ "loan_id"%string ∉ col_names loansDataFrame
     ∨ "account_id"%string ∉ col_names loansDataFrame)
  ∧ (∀ e, cleanData loansDataFrame = Raise e → e = KeyError)
  ∧ (∀ clean, cleanData loansDataFrame = Ok clean →
              cleanData clean = Raise KeyError).
Proof.
  unfold cleanData, columnsToRemove.
  destruct (decide ("loan_id"%string ∈ col_names loansDataFrame))
    as [Hloan|Hloan].
  - rewrite for_each_cons, (drop_without_column _ _ Hloan). cbn [bind].
    destruct (decide ("account_id"%string ∈ col_names loansDataFrame))
      as [Hacc|Hacc].
    + rewrite for_each_cons, drop_without_column
        by (by apply col_names_without_column).
      cbn [bind for_each]. split; [|split].
      * split; [done | by intros [?|?]].
      * done.
      * intros clean [= <-]. rewrite drop_Raise; [done|].
        rewrite !col_names_without_column. by intros (_ & ? & _).
    + rewrite for_each_cons, drop_Raise
        by (rewrite col_names_without_column; by intros [_ ?]).
      cbn [bind]. split; [|split].
      * split; [by right | done].
      * by intros e [= <-].
      * done.
  - rewrite for_each_cons, (drop_Raise _ _ Hloan). cbn [bind].
    split; [|split].
    + split; [by left | done].
    + by intros e [= <-].
    + done.
Qed.

(** ** Outlier filter: further properties *)

Lemma filter_mask_sublist {A} (m : list bool) (xs : list A) :
  filter_mask m xs `sublist_of` xs.
Proof.
  revert xs. induction m as [|b m IH]; intros [|x xs]; cbn;
    try apply sublist_nil_l.
  destruct b; [by apply sublist_skip | by apply sublist_cons].
Qed.

Lemma col_names_mask m cols : (mask_columns m cols).*1 = cols.*1.
Proof. apply names_fmap_snd. Qed.

Lemma filter_mask_columns (d : string) m
    (cols : list (string * list value)) :
  filter (λ p, p.1 ≠ d) (mask_columns m cols)
  = mask_columns m (filter (λ p, p.1 ≠ d) cols).
Proof.
  unfold mask_columns. induction cols as [|[n vs] cols IH]; [done|].
  rewrite fmap_cons, !filter_cons. cbn [fst].
  destruct (decide (n ≠ d)); rewrite IH; done.
Qed.


Section outlier_further.
Variable lib : FloatLib.

(** A successful round of the loop selects rows by some mask. *)
Lemma removeOutliers_body_Ok orig df c out :
  removeOutliers_body lib orig df c = Ok out →
  ∃ m, length m = nrows df
     ∧ out = mkDataFrame (filter_mask m (df_index df))
               (mask_columns m (df_columns df)).
Proof.
  unfold removeOutliers_body.
  destruct (getitem df c) as [col|]; [|done]. cbn [bind].
  destruct (getitem orig c) as [ocol|]; [|done]. cbn [bind].
  destruct (map_each to_float ocol) as [o|]; [|done]. cbn [bind].
  destruct (map_each to_float col) as [a|]; [|done]. cbn [bind].
  unfold mask_rows. case_decide; [|done]. intros [= <-]. by eexists.
Qed.

Lemma outlier_loop_Ok orig cs df out :
  for_each (removeOutliers_body lib orig) cs df = Ok out →
  col_names out = col_names df
  ∧ df_index out `sublist_of` df_index df
  ∧ iterrows out `sublist_of` iterrows df.
Proof.
  revert df. induction cs as [|c cs IH]; intros df.
  - by intros [= <-].
  - rewrite for_each_cons.
    destruct (removeOutliers_body lib orig df c) as [mid|] eqn:Hmid;
      [|done].
    cbn [bind]. intros (Hn & Hi & Hr)%IH.
    apply removeOutliers_body_Ok in Hmid as (m & _ & ->).
    unfold col_names, iterrows in *. cbn [df_columns df_index] in *.
    rewrite col_names_mask in Hn. rewrite rows_of_filter_mask in Hr.
    split; [done|]. split.
    + etrans; [exact Hi | apply filter_mask_sublist].
    + etrans; [exact Hr | apply filter_mask_sublist].
Qed.

(** X13.  Whatever the table holds, a successful [removeOutliers] only
    selects rows: the columns are the same, and the rows of the result
    are rows of the input, in the same order and with the same cells;
    nothing is added, reordered or rewritten. *)
Theorem removeOutliers_selects_rows (loansDataFrame out : DataFrame) :
  removeOutliers lib loansDataFrame = Ok out →
  col_names out = col_names loansDataFrame
  ∧ df_index out `sublist_of` df_index loansDataFrame
  ∧ iterrows out `sublist_of` iterrows loansDataFrame
  ∧ (nrows out ≤ nrows loansDataFrame)%nat.
Proof.
  intros (Hn & Hi & Hr)%outlier_loop_Ok.
  split; [done|]. split; [done|]. split; [done|].
  by apply sublist_length.
Qed.

(** Dropping a column the round does not read commutes with the round. *)
Lemma removeOutliers_body_without_column orig df c d :
  d ≠ c → d ∈ col_names df →
  removeOutliers_body lib (without_column orig d) (without_column df d) c
  = let* out := removeOutliers_body lib orig df c in drop out d.
Proof.
  intros Hdc Hd. unfold removeOutliers_body, getitem, without_column.
  cbn [df_columns]. rewrite !assoc_drop, !decide_False by done.
  destruct (assoc c (df_columns df)) as [col|]; [|done]. cbn [bind].
  destruct (assoc c (df_columns orig)) as [ocol|]; [|done]. cbn [bind].
  destruct (map_each to_float ocol) as [o|]; [|done]. cbn [bind].
  destruct (map_each to_float col) as [a|]; [|done]. cbn [bind].
  unfold mask_rows, nrows. cbn [df_index].
  case_decide; [|done]. cbn [bind].
  rewrite drop_Ok
    by (unfold col_names; cbn [df_columns]; by rewrite col_names_mask).
  cbn [df_index df_columns]. f_equal. f_equal.
  symmetry. apply filter_mask_columns.
Qed.

Lemma outlier_loop_without_column orig cs df d :
  d ∉ cs → d ∈ col_names df →
  for_each (removeOutliers_body lib (without_column orig d)) cs
    (without_column df d)
  = let* out := for_each (removeOutliers_body lib orig) cs df in drop out d.
Proof.
  revert df. induction cs as [|c cs IH]; intros df Hd Hin.
  - cbn [for_each bind]. by rewrite drop_without_column.
  - apply not_elem_of_cons in Hd as [Hdc Hd].
    rewrite !for_each_cons, removeOutliers_body_without_column by done.
    destruct (removeOutliers_body lib orig df c) as [mid|] eqn:Hmid;
      [|done].
    cbn [bind].
    assert (Hin' : d ∈ col_names mid).
    { apply removeOutliers_body_Ok in Hmid as (m & _ & ->).
      unfold col_names in *. cbn [df_columns].
      by rewrite col_names_mask. }
    rewrite (drop_without_column _ _ Hin'). cbn [bind]. by apply IH.
Qed.

(** X14.  Cleaning and outlier filtering can be done in either order:
    on a table that has [loan_id] and [account_id], filtering the
    cleaned table gives what cleaning the filtered table gives, the
    same table or the same exception. *)
Theorem cleanData_removeOutliers_commute (loansDataFrame : DataFrame) :
  "loan_id"%string ∈ col_names loansDataFrame →
  "account_id"%string ∈ col_names loansDataFrame →
  (let* clean := cleanData loansDataFrame in removeOutliers lib clean)
  = (let* kept := removeOutliers lib loansDataFrame in cleanData kept).
Proof.
  intros Hloan Hacc.
  assert (Hclean :
    cleanData loansDataFrame
    = Ok (without_column (without_column loansDataFrame "loan_id")
            "account_id")).
  { unfold cleanData, columnsToRemove.
    rewrite for_each_cons, (drop_without_column _ _ Hloan). cbn [bind].
    rewrite for_each_cons, drop_without_column
      by (by apply col_names_without_column).
    done. }
  rewrite Hclean. cbn [bind]. unfold removeOutliers.
  rewrite outlier_loop_without_column;
    [| by apply (bool_decide_unpack _)
     | by apply col_names_without_column].
  rewrite outlier_loop_without_column;
    [| by apply (bool_decide_unpack _) | done].
  destruct (for_each (removeOutliers_body lib loansDataFrame)
              nonCategoricalColumns loansDataFrame) as [kept|]; [|done].
  cbn [bind]. unfold cleanData, columnsToRemove. cbn [for_each].
  destruct (drop kept "loan_id") as [kept'|]; [|done].
  cbn [bind]. by destruct (drop kept' "account_id").
Qed.






End outlier_further.

Lemma removeOutliers_selects_rows_witness :
  col_names sample_survivors = col_names sample_features
  ∧ df_index sample_survivors `sublist_of` df_index sample_features
  ∧ iterrows sample_survivors `sublist_of` iterrows sample_features
  ∧ (nrows sample_survivors ≤ nrows sample_features)%nat.
Proof.
  apply (removeOutliers_selects_rows exact_lib sample_features
           sample_survivors).
  vm_compute. reflexivity.
Defined.

Lemma cleanData_removeOutliers_commute_witness :
  (let* clean :=
     cleanData
       (mkDataFrame (df_index sample_features)
          (num_col "loan_id" alternating :: num_col "account_id" alternating
             :: df_columns sample_features)) in
   removeOutliers exact_lib clean)
  = (let* kept :=
       removeOutliers exact_lib
         (mkDataFrame (df_index sample_features)
            (num_col "loan_id" alternating
               :: num_col "account_id" alternating
               :: df_columns sample_features)) in
     cleanData kept).
Proof.
  apply (cleanData_removeOutliers_commute exact_lib
           (mkDataFrame (df_index sample_features)
              (num_col "loan_id" alternating
                 :: num_col "account_id" alternating
                 :: df_columns sample_features))).
  - by apply (bool_decide_unpack _).
  - by apply (bool_decide_unpack _).
Defined.



(** ** Encoder: further properties *)

Lemma names_filter {A} (c : string) (l : list (string * A)) :
  (filter (λ p, p.1 ≠ c) l).*1 = filter (λ n, n ≠ c) l.*1.
Proof.
  induction l as [|[n a] l IH]; [done|].
  rewrite fmap_cons, !filter_cons. cbn [fst].
  destruct (decide (n ≠ c)); by rewrite ?fmap_cons, IH.
Qed.

Lemma wf_without_column df c : wf df → wf (without_column df c).
Proof.
  intros [Hnd Hlen]. split.
  - unfold col_names, without_column. cbn [df_columns].
    rewrite names_filter. by apply NoDup_filter.
  - unfold without_column, nrows. cbn [df_columns df_index].
    apply Forall_forall. intros p [_ Hp]%list_elem_of_filter.
    by apply (proj1 (Forall_forall _ _) Hlen).
Qed.

Lemma wf_append_column df c vs :
  wf df → c ∉ col_names df → length vs = nrows df →
  wf (append_column df c vs).
Proof.
  intros [Hnd Hlen] Hc Hvs. split.
  - unfold col_names, append_column. cbn [df_columns].
    rewrite fmap_app. apply NoDup_app. split; [done|]. split.
    + intros n Hn ->%list_elem_of_singleton. done.
    + apply NoDup_singleton.
  - unfold append_column, nrows. cbn [df_columns df_index].
    apply Forall_app. split; [done|]. by repeat constructor.
Qed.

Lemma setitem_new df c vs :
  c ∉ col_names df → length vs = nrows df →
  setitem df c vs = Ok (append_column df c vs).
Proof.
  intros Hc Hlen. unfold setitem.
  by rewrite decide_True, decide_False.
Qed.

Lemma getitem_without_column df c c' :
  getitem (without_column df c) c'
  = if decide (c' = c) then Raise KeyError else getitem df c'.
Proof.
  unfold getitem, without_column. cbn [df_columns]. rewrite assoc_drop.
  by destruct (decide (c' = c)).
Qed.

Lemma getitem_append_column df c vs c' :
  c ∉ col_names df →
  getitem (append_column df c vs) c'
  = if decide (c' = c) then Ok vs else getitem df c'.
Proof.
  intros Hc%assoc_None. unfold getitem, append_column. cbn [df_columns].
  rewrite assoc_snoc.
  destruct (decide (c' = c)) as [->|?]; [by rewrite Hc|].
  by destruct (assoc c' (df_columns df)).
Qed.

Lemma col_names_append_column df c vs :
  col_names (append_column df c vs) = col_names df ++ [c].
Proof. unfold col_names, append_column. cbn. by rewrite fmap_app. Qed.

Lemma col_names_without df c :
  col_names (without_column df c) = filter (λ n, n ≠ c) (col_names df).
Proof. apply names_filter. Qed.

Lemma length_codes_of y : length (codes_of y) = length y.
Proof. unfold codes_of. by rewrite length_fmap. Qed.

Section encoder_extras.
Variables (py_str : value → string)
          (convertFullDate : string → result Date).

Local Abbreviation parse := (λ v, convertFullDate (py_str v)).

(** The first half of [labelEncoding]: both categorical columns are
    encoded and moved to the right. *)
Lemma labelEncoding_categories df gender ageGroup :
  wf df →
  getitem df "gender" = Ok gender →
  getitem df "ageGroup" = Ok ageGroup →
  uniform gender = true → uniform ageGroup = true →
  labelEncoding py_str convertFullDate df
  = (let* ymd :=
       for_each (split_date_body py_str convertFullDate)
         (iterrows (encoded_categories df gender ageGroup)) ([], [], []) in
     let* e := drop (encoded_categories df gender ageGroup) "date" in
     let* e := setitem e "month" (int_column ymd.1.2) in
     setitem e "day" (int_column ymd.2))
  ∧ wf (encoded_categories df gender ageGroup)
  ∧ col_names (encoded_categories df gender ageGroup)
    = filter (λ n, n ∉ ["gender"; "ageGroup"]%string) (col_names df)
      ++ ["gender"; "ageGroup"]%string
  ∧ ∀ c, c ≠ "gender"%string → c ≠ "ageGroup"%string →
         getitem (encoded_categories df gender ageGroup) c = getitem df c.
Proof.
  intros Hwf Hg Ha Hug Hua.
  assert (Hlg : length gender = nrows df)
    by (eapply wf_column_length; [done | by apply getitem_Ok]).
  assert (Hla : length ageGroup = nrows df)
    by (eapply wf_column_length; [done | by apply getitem_Ok]).
  set (e1 := without_column df "gender").
  set (e2 := without_column e1 "ageGroup").
  set (e3 := append_column e2 "gender" (codes_of gender)).
  assert (Hg_in : "gender"%string ∈ col_names df)
    by (apply getitem_is_Ok; by eexists).
  assert (Ha_in : "ageGroup"%string ∈ col_names e1).
  { unfold e1. apply col_names_without_column. split; [done|].
    apply getitem_is_Ok. by eexists. }
  assert (Hg_out : "gender"%string ∉ col_names e2).
  { unfold e2, e1. rewrite !col_names_without_column.
    by intros (_ & ? & _). }
  assert (Ha_out : "ageGroup"%string ∉ col_names e3).
  { unfold e3, e2. rewrite col_names_append_column, not_elem_of_app. split.
    - rewrite col_names_without_column. by intros [? _].
    - by intros ?%list_elem_of_singleton. }
  split; [|split; [|split]].
  - unfold labelEncoding. rewrite Hg. cbn [bind].
    rewrite (fit_transform_Ok _ Hug). cbn [bind]. rewrite Ha. cbn [bind].
    rewrite (fit_transform_Ok _ Hua). cbn [bind].
    rewrite (drop_without_column _ _ Hg_in). cbn [bind]. fold e1.
    rewrite (drop_without_column _ _ Ha_in). cbn [bind]. fold e2.
    rewrite (setitem_new e2 "gender") by
      (done || by rewrite length_fmap).
    cbn [bind]. fold (codes_of gender). fold e3.
    rewrite (setitem_new e3 "ageGroup") by
      (done || by rewrite length_fmap).
    done.
  - unfold encoded_categories. fold e1 e2 e3.
    apply wf_append_column; [|done|by rewrite length_codes_of].
    apply wf_append_column; [|done|by rewrite length_codes_of].
    by do 2 apply wf_without_column.
  - unfold encoded_categories.
    rewrite !col_names_append_column, !col_names_without, <- app_assoc.
    f_equal. rewrite list_filter_filter. apply list_filter_iff.
    intros n. rewrite !not_elem_of_cons. split.
    + intros [? ?]. split_and!; [done..|apply not_elem_of_nil].
    + by intros (? & ? & _).
  - intros c Hcg Hca. unfold encoded_categories. fold e1 e2 e3.
    rewrite (getitem_append_column e3) by done.
    rewrite decide_False by done. unfold e3.
    rewrite (getitem_append_column e2) by done.
    rewrite decide_False by done. unfold e2, e1.
    rewrite !getitem_without_column, !decide_False by done. done.
Qed.

Lemma map_each_length {A B} (f : A → result B) xs ys :
  map_each f xs = Ok ys → length ys = length xs.
Proof.
  revert ys. induction xs as [|x xs IH]; intros ys; cbn [map_each].
  - by intros [= <-].
  - destruct (f x); [|done]. cbn [bind].
    destruct (map_each f xs) as [ys'|]; [|done]. cbn [bind].
    intros [= <-]. cbn. f_equal. by apply IH.
Qed.

(** X19.  On a well-formed table that has no [month] or [day] column
    yet, the encoded table is well formed and its columns are, in this
    order: the input's columns other than [gender], [ageGroup] and
    [date], then [gender], [ageGroup], [month], [day]. *)
Theorem labelEncoding_column_order
    (loansDataFrame : DataFrame) (gender ageGroup dates : list value)
    (parsed : list Date) :
  wf loansDataFrame →
  getitem loansDataFrame "gender" = Ok gender →
  getitem loansDataFrame "ageGroup" = Ok ageGroup →
  getitem loansDataFrame "date" = Ok dates →
  uniform gender = true →
  uniform ageGroup = true →
  map_each parse dates = Ok parsed →
  "month"%string ∉ col_names loansDataFrame →
  "day"%string ∉ col_names loansDataFrame →
  ∃ out,
    labelEncoding py_str convertFullDate loansDataFrame = Ok out
    ∧ wf out
    ∧ col_names out
      = filter (λ n, n ∉ ["gender"; "ageGroup"; "date"]%string)
          (col_names loansDataFrame)
        ++ ["gender"; "ageGroup"; "month"; "day"]%string.
Proof.
  intros Hwf Hg Ha Hd Hug Hua Hparse Hmonth Hday.
  destruct (labelEncoding_categories loansDataFrame gender ageGroup
              Hwf Hg Ha Hug Hua) as (-> & Hwf4 & Hnames4 & Hget4).
  set (e4 := encoded_categories loansDataFrame gender ageGroup) in *.
  assert (Hidx : df_index e4 = df_index loansDataFrame) by done.
  assert (Hld : length dates = nrows loansDataFrame)
    by (eapply wf_column_length; [done | by apply getitem_Ok]).
  assert (Hlp : length parsed = nrows loansDataFrame)
    by (by rewrite (map_each_length _ _ _ Hparse)).
  assert (Hd4 : getitem e4 "date" = Ok dates) by (by rewrite Hget4).
  unfold iterrows.
  rewrite (split_date_loop py_str convertFullDate _ dates parsed
             ([], [], []));
    [| apply rows_of_column; [by apply getitem_Ok | by rewrite Hidx]
     | done].
  cbn [bind fst snd app].
  assert (Hd_in : "date"%string ∈ col_names e4)
    by (apply getitem_is_Ok; by eexists).
  rewrite (drop_without_column _ _ Hd_in). cbn [bind].
  set (e5 := without_column e4 "date").
  assert (Hn5 : col_names e5
                = filter (λ n, n ∉ ["gender"; "ageGroup"; "date"]%string)
                    (col_names loansDataFrame)
                  ++ ["gender"; "ageGroup"]%string).
  { unfold e5. rewrite col_names_without, Hnames4, filter_app.
    f_equal. rewrite list_filter_filter. apply list_filter_iff.
    intros n. rewrite !not_elem_of_cons. tauto. }
  assert (Hm5 : "month"%string ∉ col_names e5).
  { rewrite Hn5, not_elem_of_app. split.
    - by intros [_ ?]%list_elem_of_filter.
    - by apply (bool_decide_unpack _). }
  assert (Hd5 : "day"%string ∉ col_names e5).
  { rewrite Hn5, not_elem_of_app. split.
    - by intros [_ ?]%list_elem_of_filter.
    - by apply (bool_decide_unpack _). }
  rewrite (setitem_new e5 "month") by
    (done || (unfold int_column; by rewrite !length_fmap)).
  cbn [bind].
  set (e6 := append_column e5 "month" (int_column (month <$> parsed))).
  assert (Hd6 : "day"%string ∉ col_names e6).
  { unfold e6. rewrite col_names_append_column, not_elem_of_app.
    split; [done | by intros ?%list_elem_of_singleton]. }
  rewrite (setitem_new e6 "day") by
    (done || (unfold int_column; by rewrite !length_fmap)).
  eexists. split; [done|]. split.
  - apply wf_append_column; [|done|unfold int_column; by rewrite !length_fmap].
    apply wf_append_column; [|done|unfold int_column; by rewrite !length_fmap].
    by apply wf_without_column.
  - unfold e6. rewrite !col_names_append_column, Hn5, <- !app_assoc. done.
Qed.

Lemma split_date_loop_raise rows pre v post ps e acc :
  (λ r : Row, assoc "date" r.2) <$> rows = Some <$> (pre ++ v :: post) →
  map_each parse pre = Ok ps →
  convertFullDate (py_str v) = Raise e →
  for_each (split_date_body py_str convertFullDate) rows acc = Raise e.
Proof.
  revert rows ps acc. induction pre as [|p pre IH];
    intros [|row rows] ps [[ys ms] dys]; try done; cbn [app];
    rewrite !fmap_cons; intros [= Hrow Hrows].
  - intros _ Hv. rewrite for_each_cons.
    unfold split_date_body, row_get. rewrite Hrow. cbn [bind].
    by rewrite Hv.
  - cbn [map_each].
    destruct (convertFullDate (py_str p)) as [d|] eqn:Hp; [|done].
    cbn [bind].
    destruct (map_each parse pre) as [ps'|] eqn:Hps; [|done].
    intros _ Hv. rewrite for_each_cons.
    unfold split_date_body at 1, row_get. rewrite Hrow. cbn [bind].
    rewrite Hp. cbn [bind]. by eapply IH.
Qed.

(** X20.  The dates are parsed from the top; the exception of the first
    date that does not parse is the exception of [labelEncoding], and
    no table is returned. *)
Theorem labelEncoding_bad_date
    (loansDataFrame : DataFrame) (gender ageGroup before : list value)
    (bad : value) (after : list value) (parsed : list Date) (e : exn) :
  wf loansDataFrame →
  getitem loansDataFrame "gender" = Ok gender →
  getitem loansDataFrame "ageGroup" = Ok ageGroup →
  getitem loansDataFrame "date" = Ok (before ++ bad :: after) →
  uniform gender = true →
  uniform ageGroup = true →
  map_each parse before = Ok parsed →
  convertFullDate (py_str bad) = Raise e →
  labelEncoding py_str convertFullDate loansDataFrame = Raise e.
Proof.
  intros Hwf Hg Ha Hd Hug Hua Hparse Hbad.
  destruct (labelEncoding_categories loansDataFrame gender ageGroup
              Hwf Hg Ha Hug Hua) as (-> & Hwf4 & Hnames4 & Hget4).
  assert (Hld : length (before ++ bad :: after) = nrows loansDataFrame)
    by (eapply wf_column_length; [done | by apply getitem_Ok]).
  unfold iterrows.
  rewrite (split_date_loop_raise _ before bad after parsed e); [done| |done..].
  apply rows_of_column; [|done].
  apply getitem_Ok. by rewrite Hget4.
Qed.

Lemma assoc_heads_None c (cols : list (string * list value)) :
  assoc c cols = None → assoc c (heads cols) = None.
Proof.
  unfold heads. induction cols as [|[n vs] cols IH]; [done|].
  cbn [assoc omap list_omap fst snd].
  destruct (decide (n = c)) as [->|Hne]; [done|]. intros Hc.
  destruct (head vs); cbn [fmap option_fmap option_map];
    [cbn [assoc]; rewrite decide_False by done|]; by apply IH.
Qed.

(** X21.  What [labelEncoding] raises on a table it cannot encode, in
    the order it finds out: [KeyError] without a [gender] column,
    [TypeError] when [gender] mixes numbers and strings, then the same
    for [ageGroup], then [KeyError] without a [date] column. *)
Theorem labelEncoding_rejects (loansDataFrame : DataFrame) :
  ("gender"%string ∉ col_names loansDataFrame →
   labelEncoding py_str convertFullDate loansDataFrame = Raise KeyError)
  ∧ (∀ gender,
       getitem loansDataFrame "gender" = Ok gender →
       uniform gender = false →
       labelEncoding py_str convertFullDate loansDataFrame
       = Raise TypeError)
  ∧ (∀ gender,
       getitem loansDataFrame "gender" = Ok gender →
       uniform gender = true →
       "ageGroup"%string ∉ col_names loansDataFrame →
       labelEncoding py_str convertFullDate loansDataFrame = Raise KeyError)
  ∧ (∀ gender ageGroup,
       getitem loansDataFrame "gender" = Ok gender →
       uniform gender = true →
       getitem loansDataFrame "ageGroup" = Ok ageGroup →
       uniform ageGroup = false →
       labelEncoding py_str convertFullDate loansDataFrame
       = Raise TypeError)
  ∧ (∀ gender ageGroup,
       wf loansDataFrame →
       getitem loansDataFrame "gender" = Ok gender →
       uniform gender = true →
       getitem loansDataFrame "ageGroup" = Ok ageGroup →
       uniform ageGroup = true →
       "date"%string ∉ col_names loansDataFrame →
       labelEncoding py_str convertFullDate loansDataFrame = Raise KeyError).
Proof.
  split_and!.
  - intros Hg%getitem_Raise. unfold labelEncoding. by rewrite Hg.
  - intros gender Hg Hug. unfold labelEncoding, fit_transform.
    rewrite Hg. cbn [bind]. by rewrite Hug.
  - intros gender Hg Hug Ha%getitem_Raise.
    unfold labelEncoding. rewrite Hg. cbn [bind].
    rewrite (fit_transform_Ok _ Hug). cbn [bind]. by rewrite Ha.
  - intros gender ageGroup Hg Hug Ha Hua.
    unfold labelEncoding. rewrite Hg. cbn [bind].
    rewrite (fit_transform_Ok _ Hug). cbn [bind]. rewrite Ha. cbn [bind].
    unfold fit_transform. by rewrite Hua.
  - intros gender ageGroup Hwf Hg Hug Ha Hua Hd.
    destruct (labelEncoding_categories loansDataFrame gender ageGroup
                Hwf Hg Ha Hug Hua) as (-> & Hwf4 & Hnames4 & Hget4).
    assert (Hd4 : getitem (encoded_categories loansDataFrame gender ageGroup)
                    "date" = Raise KeyError).
    { rewrite Hget4 by done. by apply getitem_Raise. }
    unfold iterrows.
    destruct (df_index (encoded_categories loansDataFrame gender ageGroup))
      as [|i idx].
    + cbn [rows_of for_each bind].
      by rewrite drop_Raise by (by apply getitem_Raise).
    + cbn [rows_of]. rewrite for_each_cons.
      unfold split_date_body at 1, row_get. cbn [snd].
      rewrite assoc_heads_None; [done|].
      apply assoc_None. by apply getitem_Raise.
Qed.
End encoder_extras.

Lemma labelEncoding_column_order_witness :
  ∃ out,
    labelEncoding sample_str sample_convertFullDate sample_combined = Ok out
    ∧ wf out
    ∧ col_names out
      = filter (λ n, n ∉ ["gender"; "ageGroup"; "date"]%string)
          (col_names sample_combined)
        ++ ["gender"; "ageGroup"; "month"; "day"]%string.
Proof.
  apply (labelEncoding_column_order sample_str sample_convertFullDate
           sample_combined
           (VStr <$> ["M"; "F"; "M"]%string)
           (VStr <$> ["senior"; "adult"; "young"]%string)
           (VStr <$> ["1997-05-12"; "1993-07-05"; "1996-11-30"]%string)
           [mkDate 1997 5 12; mkDate 1993 7 5; mkDate 1996 11 30]).
  - split; [by apply (bool_decide_unpack _) | by repeat constructor].
  - reflexivity.
  - reflexivity.
  - reflexivity.
  - reflexivity.
  - reflexivity.
  - reflexivity.
  - by apply (bool_decide_unpack _).
  - by apply (bool_decide_unpack _).
Defined.

Lemma labelEncoding_bad_date_witness :
  labelEncoding sample_str sample_convertFullDate sample_bad_dates
  = Raise ValueError.
Proof.
  apply (labelEncoding_bad_date sample_str sample_convertFullDate
           sample_bad_dates
           (VStr <$> ["M"; "F"; "M"]%string)
           (VStr <$> ["senior"; "adult"; "young"]%string)
           [VStr "1997-05-12"] (VStr "1993-13-05") [VStr "1996-11-30"]
           [mkDate 1997 5 12] ValueError).
  - split; [by apply (bool_decide_unpack _) | by repeat constructor].
  - reflexivity.
  - reflexivity.
  - reflexivity.
  - reflexivity.
  - reflexivity.
  - reflexivity.
  - reflexivity.
Defined.

Lemma insert_class_length_le x cs :
  (length (insert_class x cs) ≤ S (length cs))%nat.
Proof.
  induction cs as [|c cs IH]; cbn [insert_class length]; [lia|].
  destruct (value_compare x c); cbn [length]; lia.
Qed.

Lemma classes_of_length_le y : (length (classes_of y) ≤ length y)%nat.
Proof.
  induction y as [|v y IH]; [done|]. cbn [classes_of foldr length].
  pose proof (insert_class_length_le v (foldr insert_class [] y)) as H.
  unfold classes_of in IH. lia.
Qed.

(** X22.  The codes of a column lose nothing and invent nothing: two
    cells get the same code exactly when they hold equal values, every
    code is below the number of distinct values, and the class list read
    at a cell's code gives the cell's value back. *)
Theorem fit_transform_codes (y : list value) :
  uniform y = true →
  fit_transform y = Ok (codes_of y)
  ∧ length (codes_of y) = length y
  ∧ (length (classes_of y) ≤ length y)%nat
  ∧ (∀ v, v ∈ y → 0 ≤ code_of y v < Z.of_nat (length (classes_of y)))
  ∧ (∀ u v, u ∈ y → v ∈ y →
       code_of y u = code_of y v ↔ value_compare u v = Eq)
  ∧ (∀ v, v ∈ y →
       ∃ c, classes_of y !! Z.to_nat (code_of y v) = Some c
            ∧ value_compare v c = Eq).
Proof.
  intros Hy.
  assert (Hdecode : ∀ v, v ∈ y →
    ∃ c, classes_of y !! index_of v (classes_of y) = Some c
         ∧ value_compare v c = Eq).
  { intros v (c & Hc & Hvc)%classes_of_has. exists c. split; [|done].
    apply index_of_sorted; [apply classes_of_sorted | done..]. }
  split; [by apply fit_transform_Ok|].
  split; [apply length_codes_of|].
  split; [apply classes_of_length_le|].
  split; [|split].
  - intros v (c & Hc & _)%Hdecode. apply lookup_lt_Some in Hc.
    unfold code_of. lia.
  - intros u v Hu Hv. split; [|apply code_of_eq].
    unfold code_of. intros Heq%Nat2Z.inj.
    destruct (Hdecode u Hu) as (c & Hc & Huc).
    destruct (Hdecode v Hv) as (c' & Hc' & Hvc).
    rewrite Heq, Hc' in Hc. injection Hc as ->.
    rewrite (value_compare_eq_r u v c Hvc). exact Huc.
  - intros v Hv. unfold code_of. rewrite Nat2Z.id. by apply Hdecode.
Qed.

Lemma fit_transform_codes_witness :
  fit_transform (VStr <$> ["M"; "F"; "M"]%string)
  = Ok (codes_of (VStr <$> ["M"; "F"; "M"]%string))
  ∧ length (codes_of (VStr <$> ["M"; "F"; "M"]%string))
    = length (VStr <$> ["M"; "F"; "M"]%string)
  ∧ (length (classes_of (VStr <$> ["M"; "F"; "M"]%string))
     ≤ length (VStr <$> ["M"; "F"; "M"]%string))%nat
  ∧ (∀ v, v ∈ VStr <$> ["M"; "F"; "M"]%string →
       0 ≤ code_of (VStr <$> ["M"; "F"; "M"]%string) v
       < Z.of_nat (length (classes_of (VStr <$> ["M"; "F"; "M"]%string))))
  ∧ (∀ u v, u ∈ VStr <$> ["M"; "F"; "M"]%string →
       v ∈ VStr <$> ["M"; "F"; "M"]%string →
       code_of (VStr <$> ["M"; "F"; "M"]%string) u
       = code_of (VStr <$> ["M"; "F"; "M"]%string) v
       ↔ value_compare u v = Eq)
  ∧ (∀ v, v ∈ VStr <$> ["M"; "F"; "M"]%string →
       ∃ c, classes_of (VStr <$> ["M"; "F"; "M"]%string)
              !! Z.to_nat (code_of (VStr <$> ["M"; "F"; "M"]%string) v)
            = Some c
            ∧ value_compare v c = Eq).
Proof.
  apply (fit_transform_codes (VStr <$> ["M"; "F"; "M"]%string)).
  reflexivity.
Defined.
